(** * The repository-provisioning resolver of pkg/gits/git_repo.go

    A shallow embedding of [PickNewOrExistingGitRepository], [GetRepoName],
    [GetOwner] and [PickNewGitRepository], and the properties of the
    resolver that its specification states.

    Go pointers ([*auth.AuthServer], [*auth.UserAuth]) are locations into
    two heaps, [None] being [nil]; reading through [nil] panics.  The
    credential store, the terminal and the hosting provider are
    collaborators of the resolver: their code is outside this file of the
    repository, so they are the fields of the class [Collaborators] and
    every theorem holds for all of them.  Each call the resolver makes to
    one of them, and each line it prints, is recorded in a trace. *)

From stdpp Require Import base option list strings gmap.

(* ===================================================================== *)
(** ** Data model *)
(* ===================================================================== *)

Abbreviation loc := positive.
Abbreviation ptr := (option loc).

(** [auth.UserAuth]: the two fields the resolver reads and writes. *)
Module UserAuth.
Record t := mk { Username : string; ApiToken : string }.
End UserAuth.

(** [auth.AuthServer]: the fields the resolver reads. *)
Module AuthServer.
Record t := mk {
  URL : string;
  Name : string;
  Kind : string;
  Users : list ptr;
  CurrentUser : string
}.
End AuthServer.

(** [GitRepositoryOptions], lines 24-32. *)
Module GitRepositoryOptions.
Record t := mk {
  ServerURL : string;
  ServerKind : string;
  Username : string;
  ApiToken : string;
  Owner : string;
  RepoName : string;
  Private : bool
}.
End GitRepositoryOptions.

(** An [error] value is either made by the resolver with [fmt.Errorf], or
    handed over by a collaborator. *)
Inductive error :=
| Errorf (msg : string)
| Foreign (msg : string).

Definition message (e : error) : string :=
  match e with Errorf m => m | Foreign m => m end.

Definition foreign (e : option string) : option error := Foreign <$> e.

(** The [GitProvider] interface: the capability the resolver calls. *)
Module GitProvider.
Record t := mk { ValidateRepositoryName : string → string → option string }.
End GitProvider.

(** The [Gitter] interface: [RepoName] joins owner and repository name;
    [PrintCreateRepositoryGenerateAccessToken] only prints, and is the
    event [EvGenerateAccessTokenHint] below. *)
Module Gitter.
Record t := mk { RepoName : string → string → string }.
End Gitter.

(** [CreateRepoData], lines 14-22. *)
Module CreateRepoData.
Record t := mk {
  Organisation : string;
  RepoName : string;
  FullName : string;
  PrivateRepo : bool;
  User : ptr;
  Server : ptr;
  GitProvider : option GitProvider.t
}.
End CreateRepoData.

(** What the human at the terminal does when a prompt reads an answer. *)
Inductive Reply :=
| Typed (answer : string)
| Abort (cause : string).

(** The world the collaborators act on: both heaps, the [auth.AuthConfig]
    that [authConfigSvc.Config()] returns ([Servers], [CurrentServer]),
    and what the human will answer. *)
Record World := mkWorld {
  userHeap : gmap loc UserAuth.t;
  serverHeap : gmap loc AuthServer.t;
  Servers : list ptr;
  CurrentServer : string;
  stdin : list Reply
}.

(** The [auth.ConfigService] interface: [Config()] is the config held in
    the world, [SaveUserAuth] persists one credential. *)
Module ConfigService.
Record t := mk { SaveUserAuth : string → ptr → World → option string * World }.
End ConfigService.

Inductive Event :=
| EvOut (text : string)
| EvGetOrCreateServer (url : string)
| EvPickServer (message : string) (batchMode : bool)
| EvGetOrCreateUserAuth (url username : string)
| EvFindUserAuth (url username : string)
| EvPickServerUserAuth (server : ptr) (message : string) (batchMode : bool)
| EvGenerateAccessTokenHint (server : ptr) (username : string)
| EvEditUserAuth (label : string) (userAuth : ptr) (batchMode : bool) (err : option string)
| EvSaveUserAuth (url : string) (userAuth : ptr) (err : option string)
| EvCreateProvider (server userAuth : ptr)
| EvPickOrganisation (userName : string)
| EvAskOne (message default : string)
| EvValidateRepositoryName (owner name : string) (err : option string).

(** The state one invocation runs in: the world, the options object that
    [repoOptions] points to, and the trace. *)
Record State := mkState {
  world : World;
  opts : GitRepositoryOptions.t;
  trace : list Event
}.

(* ===================================================================== *)
(** ** Control: state, early [return] and panic *)
(* ===================================================================== *)

Inductive Ctl (R A : Type) :=
| Continue (a : A)
| Return (r : R)
| Panic.
Arguments Continue {R A} a.
Arguments Return {R A} r.
Arguments Panic {R A}.

Definition M (R A : Type) : Type := State → Ctl R A * State.

#[global] Instance M_ret {R} : MRet (M R) := λ A a st, (Continue a, st).

#[global] Instance M_bind {R} : MBind (M R) := λ A B f m st,
  match m st with
  | (Continue a, st') => f a st'
  | (Return r, st') => (Return r, st')
  | (Panic, st') => (Panic, st')
  end.

(** [return r] *)
Definition ret {R A} (r : R) : M R A := λ st, (Return r, st).

Definition panic {R A} : M R A := λ st, (Panic, st).

(** A function body ends in [ret]; calling it yields what it returned. *)
Definition call {R R'} (body : M R Empty_set) : M R' R := λ st,
  match body st with
  | (Return r, st') => (Continue r, st')
  | (Continue a, st') => match a with end
  | (Panic, st') => (Panic, st')
  end.

Definition emit {R} (e : Event) : M R unit := λ st,
  (Continue tt, mkState (world st) (opts st) (trace st ++ [e])).

Definition getWorld {R} : M R World := λ st, (Continue (world st), st).

Definition getOpts {R} : M R GitRepositoryOptions.t := λ st, (Continue (opts st), st).

(** A collaborator that may change the world. *)
Definition collab {R A} (f : World → A * World) : M R A := λ st,
  let '(a, w) := f (world st) in (Continue a, mkState w (opts st) (trace st)).

(** [repoOptions.ServerURL = url] *)
Definition withServerURL (o : GitRepositoryOptions.t) (url : string)
    : GitRepositoryOptions.t :=
  GitRepositoryOptions.mk url (GitRepositoryOptions.ServerKind o)
    (GitRepositoryOptions.Username o) (GitRepositoryOptions.ApiToken o)
    (GitRepositoryOptions.Owner o) (GitRepositoryOptions.RepoName o)
    (GitRepositoryOptions.Private o).

Definition setServerURL {R} (url : string) : M R unit := λ st,
  (Continue tt, mkState (world st) (withServerURL (opts st) url) (trace st)).

Definition lookupServer (w : World) (p : ptr) : option AuthServer.t :=
  l ← p; serverHeap w !! l.

Definition lookupUser (w : World) (p : ptr) : option UserAuth.t :=
  l ← p; userHeap w !! l.

(** Reading a field through a pointer. *)
Definition derefServer {R} (p : ptr) : M R AuthServer.t := λ st,
  match lookupServer (world st) p with
  | Some s => (Continue s, st)
  | None => (Panic, st)
  end.

Definition derefUser {R} (p : ptr) : M R UserAuth.t := λ st,
  match lookupUser (world st) p with
  | Some u => (Continue u, st)
  | None => (Panic, st)
  end.

(** [userAuth.ApiToken = token] *)
Definition setApiToken {R} (p : ptr) (token : string) : M R unit := λ st,
  match p with
  | Some l =>
    match userHeap (world st) !! l with
    | Some u =>
      let w := world st in
      (Continue tt,
       mkState
         (mkWorld (<[l := UserAuth.mk (UserAuth.Username u) token]> (userHeap w))
            (serverHeap w) (Servers w) (CurrentServer w) (stdin w))
         (opts st) (trace st))
    | None => (Panic, st)
    end
  | None => (Panic, st)
  end.

Definition withStdin (w : World) (script : list Reply) : World :=
  mkWorld (userHeap w) (serverHeap w) (Servers w) (CurrentServer w) script.

Definition setStdin {R} (script : list Reply) : M R unit := λ st,
  (Continue tt, mkState (withStdin (world st) script) (opts st) (trace st)).

Definition newline : string := String (Ascii.ascii_of_nat 10) "".

(* ===================================================================== *)
(** ** Collaborators *)
(* ===================================================================== *)

(** Code of the repository that the resolver calls and that lives outside
    git_repo.go: methods of [auth.UserAuth], [auth.AuthServer] and
    [auth.AuthConfig], functions of the packages [gits] and [util], and
    [strings.TrimSpace].  An error they return is its message.
    [EditUserAuth] also returns the user names it called its callback
    with, in order. *)
Class Collaborators := {
  IsInvalid : UserAuth.t → bool;
  Description : AuthServer.t → string;
  Label : AuthServer.t → string;
  GetOrCreateServer : string → World → ptr * World;
  GetOrCreateUserAuth : string → string → World → ptr * World;
  FindUserAuth : string → string → World → ptr * World;
  PickServer : string → bool → World → (ptr * option string) * World;
  PickServerUserAuth :
    ptr → string → bool → string → World → (ptr * option string) * World;
  EditUserAuth :
    string → ptr → string → bool → bool → World →
    (list string * option string) * World;
  CreateProvider :
    ptr → ptr → Gitter.t → World → option GitProvider.t * option string;
  PickOrganisation :
    option GitProvider.t → string → World → (string * option string) * World;
  ColorInfo : string → string;
  TrimSpace : string → string
}.

(** The result pair of [PickNewOrExistingGitRepository]. *)
Abbreviation GoResult := (option CreateRepoData.t * option error)%type.

(** The errors of the specification, with the text the code gives them. *)
Definition NoServersConfigured : error := Errorf "No Git servers are configured!".
Definition NoCredentialsConfigured (url : string) : error :=
  Errorf ("Server " +:+ url +:+ " has no user auths defined").
Definition StoreFailure (cause : error) : error :=
  Errorf ("Failed to store git auth configuration " +:+ message cause).
Definition IncompleteAuthentication : error :=
  Errorf "You did not properly define the user authentication".
Definition RepositoryNameRequired : error := Errorf "Repository name is required".
Definition NoRepositoryNameSpecified : error := Errorf "No repository name specified".

(** What [survey.AskOne] hands to a validator ([interface{}]). *)
Inductive Value :=
| VString (s : string)
| VOther.

(** The cancellation error of the Prompt Engine. *)
Definition PromptCancelled : error := Foreign "interrupt".

(** Modelled from the spec: the Prompt Engine ([survey.AskOne], a library
    outside the repository) renders a question, reads an answer and
    enforces the validator: a rejected answer is asked for again; when the
    human aborts, or no answer is left, it returns a cancellation error
    and leaves the response variable as it was. *)
Fixpoint askLoop {R} (validator : Value → M R (option error)) (response : string)
    (script : list Reply) : M R (string * option error) :=
  match script with
  | [] => mret (response, Some PromptCancelled)
  | Abort cause :: rest =>
    setStdin rest;;
    mret (response, Some (Foreign cause))
  | Typed answer :: rest =>
    setStdin rest;;
    invalid ← validator (VString answer);
    match invalid with
    | None => mret (answer, None)
    | Some _ => askLoop validator response rest
    end
  end.

(** Modelled from the spec: [survey.AskOne] with an [Input] prompt; the
    answers come from the terminal of the world. *)
Definition AskOne {R} (message default response : string)
    (validator : Value → M R (option error)) : M R (string * option error) :=
  emit (EvAskOne message default);;
  w ← getWorld;
  askLoop validator response (stdin w).

(* ===================================================================== *)
(** ** The resolver *)
(* ===================================================================== *)

Section Resolver.
Context `{C : Collaborators}.

(** Lines 61-66: [for _, s := range config.Servers]. *)
Fixpoint rangeServers {R} (currentServer : string) (servers : list ptr) (server : ptr)
    : M R ptr :=
  match servers with
  | [] => mret server
  | s :: rest =>
    v ← derefServer s;
    if decide (AuthServer.Name v = currentServer ∨ AuthServer.URL v = currentServer)
    then mret s
    else rangeServers currentServer rest server
  end.

(** Lines 49-76: the server stage. *)
Definition resolveServer (batchMode : bool) (server : ptr) : M GoResult ptr :=
  match server with
  | Some _ => mret server
  | None =>
    repoOptions ← getOpts;
    if decide (GitRepositoryOptions.ServerURL repoOptions ≠ "") then
      emit (EvGetOrCreateServer (GitRepositoryOptions.ServerURL repoOptions));;
      collab (GetOrCreateServer (GitRepositoryOptions.ServerURL repoOptions))
    else
      server ← (if batchMode then
                  config ← getWorld;
                  match Servers config with
                  | [] => ret (None, Some NoServersConfigured)
                  | server :: _ =>
                    let currentServer := CurrentServer config in
                    if decide (currentServer ≠ "") then
                      rangeServers currentServer (Servers config) server
                    else mret server
                  end
                else
                  emit (EvPickServer "Which Git service?" batchMode);;
                  '(server, err) ← collab (PickServer "Which Git service?" batchMode);
                  match err with
                  | Some _ => ret (None, foreign err)
                  | None => mret server
                  end);
      s ← derefServer server;
      setServerURL (AuthServer.URL s);;
      mret server
  end.

(** Lines 80-103: the credential stage. *)
Definition resolveUserAuth (batchMode : bool) (server : ptr) (url : string)
    (userAuth : ptr) : M GoResult ptr :=
  match userAuth with
  | Some _ => mret userAuth
  | None =>
    repoOptions ← getOpts;
    if decide (GitRepositoryOptions.Username repoOptions ≠ "") then
      emit (EvGetOrCreateUserAuth url (GitRepositoryOptions.Username repoOptions));;
      collab (GetOrCreateUserAuth url (GitRepositoryOptions.Username repoOptions))
    else if batchMode then
      s ← derefServer server;
      if decide (length (AuthServer.Users s) = 0) then
        ret (None, Some (NoCredentialsConfigured url))
      else
        ua ← (if decide (AuthServer.CurrentUser s ≠ "") then
                emit (EvFindUserAuth url (AuthServer.CurrentUser s));;
                collab (FindUserAuth url (AuthServer.CurrentUser s))
              else mret None);
        match ua with
        | Some _ => mret ua
        | None =>
          s ← derefServer server;
          match AuthServer.Users s with
          | [] => panic
          | ua :: _ => mret ua
          end
        end
    else
      emit (EvPickServerUserAuth server "Git user name?" batchMode);;
      '(userAuth, err) ← collab (PickServerUserAuth server "Git user name?" batchMode "");
      match err with
      | Some _ => ret (None, foreign err)
      | None => mret userAuth
      end
  end.

(** Lines 105-107: the token of the options. *)
Definition applyToken (userAuth : ptr) : M GoResult unit :=
  u ← derefUser userAuth;
  repoOptions ← getOpts;
  if IsInvalid u && bool_decide (GitRepositoryOptions.ApiToken repoOptions ≠ "") then
    setApiToken userAuth (GitRepositoryOptions.ApiToken repoOptions)
  else mret tt.

(** Lines 109-131: the edit flow. *)
Definition editFlow (batchMode : bool) (authConfigSvc : ConfigService.t)
    (server : ptr) (url : string) (userAuth : ptr) : M GoResult unit :=
  u ← derefUser userAuth;
  if IsInvalid u then
    let defaultUserName := "" in
    s ← derefServer server;
    '(hints, err) ← collab (EditUserAuth (Label s) userAuth defaultUserName true batchMode);
    mapM (λ username, emit (EvGenerateAccessTokenHint server username)) hints;;
    emit (EvEditUserAuth (Label s) userAuth batchMode err);;
    match err with
    | Some _ => ret (None, foreign err)
    | None =>
      err ← collab (ConfigService.SaveUserAuth authConfigSvc url userAuth);
      emit (EvSaveUserAuth url userAuth err);;
      match err with
      | Some e => ret (None, Some (StoreFailure (Foreign e)))
      | None =>
        u ← derefUser userAuth;
        if IsInvalid u then ret (None, Some IncompleteAuthentication)
        else mret tt
      end
    end
  else mret tt.

(** Lines 206-221. *)
Definition GetOwner (batchMode : bool) (provider : option GitProvider.t)
    (gitUsername : string) : M (string * option error) Empty_set :=
  let owner := "" in
  owner ← (if batchMode then mret gitUsername
           else
             emit (EvPickOrganisation gitUsername);;
             '(org, err) ← collab (PickOrganisation provider gitUsername);
             match err with
             | Some _ => ret ("", foreign err)
             | None =>
               let owner := org in
               if decide (org = "") then mret gitUsername else mret owner
             end);
  ret (owner, None).

(** Lines 182-194: the validator closure of [GetRepoName]. *)
Definition validator (allowExistingRepo : bool) (provider : option GitProvider.t)
    (owner : string) (val : Value) : M (string * option error) (option error) :=
  match val with
  | VOther => mret (Some (Errorf "Expected string value"))
  | VString str =>
    if decide (TrimSpace str = "") then mret (Some RepositoryNameRequired)
    else if allowExistingRepo then mret None
    else
      match provider with
      | None => panic
      | Some p =>
        let err := GitProvider.ValidateRepositoryName p owner str in
        emit (EvValidateRepositoryName owner str err);;
        mret (foreign err)
      end
  end.

(** Lines 169-204. *)
Definition GetRepoName (batchMode allowExistingRepo : bool)
    (provider : option GitProvider.t) (defaultRepoName owner : string)
    : M (string * option error) Empty_set :=
  let repoName := "" in
  repoName ← (if batchMode then
                let repoName := defaultRepoName in
                if decide (repoName = "") then mret "dummy" else mret repoName
              else
                '(repoName, err) ← AskOne "Enter the new repository name: "
                                     defaultRepoName repoName
                                     (validator allowExistingRepo provider owner);
                match err with
                | Some _ => ret ("", err)
                | None =>
                  if decide (repoName = "") then ret ("", Some NoRepositoryNameSpecified)
                  else mret repoName
                end);
  ret (repoName, None).

(** Lines 140-146: the owner stage; [err] is the variable of line 48. *)
Definition resolveOwner (batchMode : bool) (provider : option GitProvider.t)
    (gitUsername : string) (err : option error) : M GoResult (string * option error) :=
  repoOptions ← getOpts;
  let owner := GitRepositoryOptions.Owner repoOptions in
  if decide (owner = "") then
    '(owner, err) ← call (GetOwner batchMode provider gitUsername);
    match err with
    | Some _ => ret (None, err)
    | None => mret (owner, err)
    end
  else mret (owner, err).

(** Lines 147-153: the name stage. *)
Definition resolveRepoName (batchMode allowExistingRepo : bool)
    (provider : option GitProvider.t) (defaultRepoName owner : string)
    (err : option error) : M GoResult (string * option error) :=
  repoOptions ← getOpts;
  let repoName := GitRepositoryOptions.RepoName repoOptions in
  if decide (repoName = "") then
    '(repoName, err) ← call (GetRepoName batchMode allowExistingRepo provider
                               defaultRepoName owner);
    match err with
    | Some _ => ret (None, err)
    | None => mret (repoName, err)
    end
  else mret (repoName, err).

(** Lines 136-166: provider binding, owner, name and assembly. *)
Definition bindAndAssemble (batchMode : bool) (defaultRepoName : string)
    (server userAuth : ptr) (git : Gitter.t) (allowExistingRepo : bool)
    (gitUsername : string) : M GoResult Empty_set :=
  emit (EvCreateProvider server userAuth);;
  w ← getWorld;
  let '(provider, err) := CreateProvider server userAuth git w in
  match err with
  | Some _ => ret (None, foreign err)
  | None =>
    '(owner, err) ← resolveOwner batchMode provider gitUsername (foreign err);
    '(repoName, err) ← resolveRepoName batchMode allowExistingRepo provider
                         defaultRepoName owner err;
    let fullName := Gitter.RepoName git owner repoName in
    emit (EvOut (newline +:+ newline +:+ "Creating repository " +:+ ColorInfo fullName
                 +:+ newline));;
    repoOptions ← getOpts;
    ret (Some (CreateRepoData.mk owner repoName fullName
                 (GitRepositoryOptions.Private repoOptions) userAuth server provider),
         err)
  end.

(** Lines 44-167. *)
Definition PickNewOrExistingGitRepository (batchMode : bool)
    (authConfigSvc : ConfigService.t) (defaultRepoName : string)
    (server userAuth : ptr) (git : Gitter.t) (allowExistingRepo : bool)
    : M GoResult Empty_set :=
  server ← resolveServer batchMode server;
  s ← derefServer server;
  emit (EvOut ("Using Git provider " +:+ ColorInfo (Description s) +:+ newline));;
  let url := AuthServer.URL s in
  userAuth ← resolveUserAuth batchMode server url userAuth;
  applyToken userAuth;;
  editFlow batchMode authConfigSvc server url userAuth;;
  u ← derefUser userAuth;
  let gitUsername := UserAuth.Username u in
  emit (EvOut (newline +:+ newline +:+ "About to create repository "
               +:+ ColorInfo defaultRepoName +:+ " on server " +:+ ColorInfo url
               +:+ " with user " +:+ ColorInfo gitUsername +:+ newline));;
  bindAndAssemble batchMode defaultRepoName server userAuth git allowExistingRepo
    gitUsername.

(** Lines 223-226. *)
Definition PickNewGitRepository (batchMode : bool) (authConfigSvc : ConfigService.t)
    (defaultRepoName : string) (server userAuth : ptr) (git : Gitter.t)
    : M GoResult Empty_set :=
  PickNewOrExistingGitRepository batchMode authConfigSvc defaultRepoName server
    userAuth git false.

End Resolver.

(* ===================================================================== *)
(** ** A reference set of collaborators, for the examples *)
(* ===================================================================== *)

(** A store that finds servers by URL and credentials by user name and
    creates what it does not find; pickers that read the choice from the
    terminal; an editor that, in batch mode, only checks the credential
    and otherwise reads the token from the terminal; a provider that
    rejects the repository names of a fixed list. *)
Module Reference.

(** Modelled from the spec: a credential is valid when its token is
    present. *)
Definition tokenMissing (u : UserAuth.t) : bool :=
  bool_decide (UserAuth.ApiToken u = "").

Definition label (s : AuthServer.t) : string :=
  if decide (AuthServer.Name s = "") then AuthServer.URL s else AuthServer.Name s.

Definition description (s : AuthServer.t) : string :=
  if decide (AuthServer.Name s = "") then AuthServer.URL s
  else AuthServer.Name s +:+ " at " +:+ AuthServer.URL s.

Definition serverHas (w : World) (f : AuthServer.t → bool) (p : ptr) : bool :=
  match lookupServer w p with Some s => f s | None => false end.

Definition userHas (w : World) (f : UserAuth.t → bool) (p : ptr) : bool :=
  match lookupUser w p with Some u => f u | None => false end.

Definition findServer (url : string) (w : World) : ptr :=
  default None
    (List.find (serverHas w (λ s, bool_decide (AuthServer.URL s = url))) (Servers w)).

Definition nextLoc {A} (h : gmap loc A) : loc :=
  Pos.succ (map_fold (λ l _ m, Pos.max l m) 1%positive h).

Definition getOrCreateServer (url : string) (w : World) : ptr * World :=
  match findServer url w with
  | Some l => (Some l, w)
  | None =>
    let l := nextLoc (serverHeap w) in
    (Some l,
     mkWorld (userHeap w) (<[l := AuthServer.mk url "" "" [] ""]> (serverHeap w))
       (Servers w ++ [Some l]) (CurrentServer w) (stdin w))
  end.

Definition findUserAuth (url username : string) (w : World) : ptr * World :=
  match lookupServer w (findServer url w) with
  | Some s =>
    (default None
       (List.find (userHas w (λ u, bool_decide (UserAuth.Username u = username)))
          (AuthServer.Users s)), w)
  | None => (None, w)
  end.

Definition getOrCreateUserAuth (url username : string) (w : World) : ptr * World :=
  let '(p, w) := getOrCreateServer url w in
  match findUserAuth url username w with
  | (Some u, _) => (Some u, w)
  | (None, _) =>
    match p, lookupServer w p with
    | Some l, Some s =>
      let u := nextLoc (userHeap w) in
      (Some u,
       mkWorld (<[u := UserAuth.mk username ""]> (userHeap w))
         (<[l := AuthServer.mk (AuthServer.URL s) (AuthServer.Name s) (AuthServer.Kind s)
                   (AuthServer.Users s ++ [Some u]) (AuthServer.CurrentUser s)]>
            (serverHeap w))
         (Servers w) (CurrentServer w) (stdin w))
    | _, _ => (None, w)
    end
  end.

Definition pickServer (message : string) (batchMode : bool) (w : World)
    : (ptr * option string) * World :=
  match stdin w with
  | Typed url :: rest => ((findServer url w, None), withStdin w rest)
  | Abort cause :: rest => ((None, Some cause), withStdin w rest)
  | [] => ((None, Some "interrupt"), w)
  end.

Definition pickServerUserAuth (server : ptr) (message : string) (batchMode : bool)
    (org : string) (w : World) : (ptr * option string) * World :=
  match stdin w, lookupServer w server with
  | Typed username :: rest, Some s =>
    let '(p, w) := getOrCreateUserAuth (AuthServer.URL s) username (withStdin w rest) in
    ((p, None), w)
  | Abort cause :: rest, _ => ((None, Some cause), withStdin w rest)
  | _, _ => ((None, Some "interrupt"), w)
  end.

Definition editUserAuth (label : string) (userAuth : ptr) (defaultUserName : string)
    (editUser batchMode : bool) (w : World) : (list string * option string) * World :=
  match userAuth, lookupUser w userAuth with
  | Some l, Some u =>
    if batchMode then
      if decide (UserAuth.Username u = "") then
        (([], Some "Running in batch mode and no default Git username found"), w)
      else if decide (UserAuth.ApiToken u = "") then
        (([], Some "Running in batch mode and no default API token found"), w)
      else (([], None), w)
    else
      match stdin w with
      | Typed token :: rest =>
        (([UserAuth.Username u], None),
         mkWorld (<[l := UserAuth.mk (UserAuth.Username u) token]> (userHeap w))
           (serverHeap w) (Servers w) (CurrentServer w) rest)
      | Abort cause :: rest => (([UserAuth.Username u], Some cause), withStdin w rest)
      | [] => (([UserAuth.Username u], Some "interrupt"), w)
      end
  | _, _ => (([], Some "no credential to edit"), w)
  end.

Definition saveUserAuth (url : string) (userAuth : ptr) (w : World)
    : option string * World := (None, w).

Definition configService : ConfigService.t := ConfigService.mk saveUserAuth.

(** A provider that rejects the names in [taken]. *)
Definition provider (taken : list string) : GitProvider.t :=
  GitProvider.mk (λ owner name,
    if bool_decide (name ∈ taken) then Some "repository already exists" else None).

Definition createProvider (server userAuth : ptr) (git : Gitter.t) (w : World)
    : option GitProvider.t * option string :=
  match lookupServer w server with
  | Some s =>
    if decide (AuthServer.Kind s = "unsupported") then (None, Some "unsupported git kind")
    else (Some (provider ["taken"]), None)
  | None => (None, Some "no server")
  end.

Definition pickOrganisation (provider : option GitProvider.t) (userName : string)
    (w : World) : (string * option string) * World :=
  match stdin w with
  | Typed org :: rest => ((org, None), withStdin w rest)
  | Abort cause :: rest => (("", Some cause), withStdin w rest)
  | [] => (("", Some "interrupt"), w)
  end.

Definition isSpace (c : Ascii.ascii) : bool :=
  bool_decide (c = Ascii.ascii_of_nat 32) || bool_decide (c = Ascii.ascii_of_nat 9)
  || bool_decide (c = Ascii.ascii_of_nat 10) || bool_decide (c = Ascii.ascii_of_nat 13).

Fixpoint trimLeft (s : string) : string :=
  match s with
  | String c rest => if isSpace c then trimLeft rest else s
  | EmptyString => EmptyString
  end.

Definition trimSpace (s : string) : string :=
  String.rev (trimLeft (String.rev (trimLeft s))).

(** [org/repo], or the bare name without an owner. *)
Definition git : Gitter.t :=
  Gitter.mk (λ org repoName, if decide (org = "") then repoName else org +:+ "/" +:+ repoName).

#[global] Instance collaborators : Collaborators := {|
  IsInvalid := tokenMissing;
  Description := description;
  Label := label;
  GetOrCreateServer := getOrCreateServer;
  GetOrCreateUserAuth := getOrCreateUserAuth;
  FindUserAuth := findUserAuth;
  PickServer := pickServer;
  PickServerUserAuth := pickServerUserAuth;
  EditUserAuth := editUserAuth;
  CreateProvider := createProvider;
  PickOrganisation := pickOrganisation;
  ColorInfo := λ s, s;
  TrimSpace := trimSpace
|}.

(** A store with two servers; alice has a token on the first, bob has
    none on the second, and carol has a token but no user name. *)
Definition users : gmap loc UserAuth.t :=
  <[1%positive := UserAuth.mk "alice" "s3cr3t"]>
    (<[2%positive := UserAuth.mk "bob" ""]>
       (<[3%positive := UserAuth.mk "" "t0k3n"]> ∅)).

Definition servers : gmap loc AuthServer.t :=
  <[1%positive := AuthServer.mk "https://git.example.com" "example" "github"
                    [Some 1%positive; Some 3%positive] ""]>
    (<[2%positive := AuthServer.mk "https://gitlab.example.org" "lab" "gitlab"
                       [Some 2%positive] "bob"]> ∅).

Definition store (currentServer : string) (script : list Reply) : World :=
  mkWorld users servers [Some 1%positive; Some 2%positive] currentServer script.

Definition noOptions : GitRepositoryOptions.t :=
  GitRepositoryOptions.mk "" "" "" "" "" "" false.

Definition start (w : World) (o : GitRepositoryOptions.t) : State := mkState w o [].

End Reference.

(* ===================================================================== *)
(** ** Further stores for the examples *)
(* ===================================================================== *)

Module Scenario.

(** The reference store with two more servers: one without credentials,
    and one of a kind no provider can be constructed for, on which alice
    is registered. *)
Definition servers : gmap loc AuthServer.t :=
  <[3%positive := AuthServer.mk "https://bare.example.net" "bare" "github" [] ""]>
    (<[4%positive := AuthServer.mk "https://old.example.net" "old" "unsupported"
                       [Some 1%positive] ""]> Reference.servers).

Definition store (script : list Reply) : World :=
  mkWorld Reference.users servers
    [Some 1%positive; Some 2%positive; Some 3%positive; Some 4%positive] "" script.

Definition withOptionsToken (token : string) : GitRepositoryOptions.t :=
  GitRepositoryOptions.mk "" "" "" token "" "" false.

(** The reference collaborators, but with a provider constructor that
    returns neither a handle nor an error. *)
Definition handleless : Collaborators := {|
  IsInvalid := Reference.tokenMissing;
  Description := Reference.description;
  Label := Reference.label;
  GetOrCreateServer := Reference.getOrCreateServer;
  GetOrCreateUserAuth := Reference.getOrCreateUserAuth;
  FindUserAuth := Reference.findUserAuth;
  PickServer := Reference.pickServer;
  PickServerUserAuth := Reference.pickServerUserAuth;
  EditUserAuth := Reference.editUserAuth;
  CreateProvider := λ _ _ _ _, (None, None);
  PickOrganisation := Reference.pickOrganisation;
  ColorInfo := λ s, s;
  TrimSpace := Reference.trimSpace
|}.

(** A [Gitter] whose naming returns the empty string. *)
Definition nameless : Gitter.t := Gitter.mk (λ _ _, "").

End Scenario.

(* ===================================================================== *)
(** ** What a run leaves behind *)
(* ===================================================================== *)

(** Every field of the options but [ServerURL] is the same. *)
Definition frame (o o' : GitRepositoryOptions.t) : Prop :=
  GitRepositoryOptions.ServerKind o' = GitRepositoryOptions.ServerKind o
  ∧ GitRepositoryOptions.Username o' = GitRepositoryOptions.Username o
  ∧ GitRepositoryOptions.ApiToken o' = GitRepositoryOptions.ApiToken o
  ∧ GitRepositoryOptions.Owner o' = GitRepositoryOptions.Owner o
  ∧ GitRepositoryOptions.RepoName o' = GitRepositoryOptions.RepoName o
  ∧ GitRepositoryOptions.Private o' = GitRepositoryOptions.Private o.

(** From [st] to [st'] the options keep their frame and the trace grows by
    events that all satisfy [φ]. *)
Definition evolves (φ : Event → Prop) (st st' : State) : Prop :=
  frame (opts st) (opts st')
  ∧ ∃ evs, trace st' = trace st ++ evs ∧ Forall φ evs.

(** [m] evolves every state, and what it returns early satisfies [ρ]. *)
Definition runs {R A} (φ : Event → Prop) (ρ : R → Prop) (m : M R A) : Prop :=
  ∀ st, evolves φ st (m st).2
        ∧ match (m st).1 with Return r => ρ r | _ => True end.

(** The events of [st'] that [st] did not have yet. *)
Definition emitted (st st' : State) : list Event :=
  drop (length (trace st)) (trace st').

(** The calls that put a question to the human: the pickers and the
    Prompt Engine always do; the credential editor does unless it is told
    that the run is a batch run. *)
Definition promptsHuman (e : Event) : bool :=
  match e with
  | EvPickServer _ _ | EvPickServerUserAuth _ _ _
  | EvPickOrganisation _ | EvAskOne _ _ => true
  | EvEditUserAuth _ _ batchMode _ => negb batchMode
  | _ => false
  end.

(** What any run may emit: in batch mode, nothing that prompts. *)
Definition mainEvent (batchMode : bool) (e : Event) : Prop :=
  batchMode = true → promptsHuman e = false.

(** A result with a value and no error, or an error and no value. *)
Definition wellFormed (r : GoResult) : Prop :=
  match r with
  | (Some _, None) | (None, Some _) => True
  | _ => False
  end.

(** Neither the credential editor nor the persist call. *)
Definition notEditSave (e : Event) : Prop :=
  match e with
  | EvEditUserAuth _ _ _ _ | EvSaveUserAuth _ _ _ => False
  | _ => True
  end.

(** The events of the stages around the edit flow. *)
Definition quiet (batchMode : bool) (e : Event) : Prop :=
  mainEvent batchMode e ∧ notEditSave e.

(** An early [return nil, err] whose error is not the one of the edit flow. *)
Definition earlyFailure (r : GoResult) : Prop :=
  ∃ e, r = (None, Some e) ∧ e ≠ IncompleteAuthentication.

(** What lines 136-166 put into the result, for options [o], the state
    of the world [w] they start in and the user name [gitUsername] read
    from the credential. *)
Definition assembled `{Collaborators} (batchMode : bool) (defaultRepoName : string)
    (server userAuth : ptr) (git : Gitter.t) (gitUsername : string)
    (o : GitRepositoryOptions.t) (w : World) (d : CreateRepoData.t) : Prop :=
  CreateRepoData.User d = userAuth
  ∧ CreateRepoData.Server d = server
  ∧ CreateRepoData.GitProvider d = (CreateProvider server userAuth git w).1
  ∧ CreateRepoData.PrivateRepo d = GitRepositoryOptions.Private o
  ∧ CreateRepoData.FullName d
    = Gitter.RepoName git (CreateRepoData.Organisation d) (CreateRepoData.RepoName d)
  ∧ CreateRepoData.RepoName d ≠ ""
  ∧ (GitRepositoryOptions.RepoName o ≠ "" →
     CreateRepoData.RepoName d = GitRepositoryOptions.RepoName o)
  ∧ (GitRepositoryOptions.RepoName o = "" → batchMode = true →
     CreateRepoData.RepoName d
     = if decide (defaultRepoName = "") then "dummy" else defaultRepoName)
  ∧ (GitRepositoryOptions.Owner o ≠ "" →
     CreateRepoData.Organisation d = GitRepositoryOptions.Owner o)
  ∧ (GitRepositoryOptions.Owner o = "" → batchMode = true →
     CreateRepoData.Organisation d = gitUsername)
  ∧ (CreateRepoData.Organisation d = "" →
     GitRepositoryOptions.Owner o = "" ∧ gitUsername = "").

(** Every call of the credential editor that returned no error is followed
    at once by the persist call for the same credential. *)
Fixpoint savedAfterEdit (evs : list Event) : Prop :=
  match evs with
  | [] => True
  | EvEditUserAuth _ p _ None :: rest =>
    match rest with
    | EvSaveUserAuth _ q _ :: _ => p = q
    | _ => False
    end ∧ savedAfterEdit rest
  | _ :: rest => savedAfterEdit rest
  end.

Definition isEdit (e : Event) : bool :=
  match e with EvEditUserAuth _ _ _ _ => true | _ => false end.

Definition isSave (e : Event) : bool :=
  match e with EvSaveUserAuth _ _ _ => true | _ => false end.

(** A return that is not the failure of the edit flow. *)
Definition notIncomplete (r : GoResult) : Prop := r.2 ≠ Some IncompleteAuthentication.

(** A call of the credential editor that returned the error [m] is the
    last thing in [evs], nothing before it is an edit or a persist call,
    and the run [c] returns that error without a result. *)
Definition failedEditEnds {A} (evs : list Event) (c : Ctl GoResult A) : Prop :=
  ∀ label p b m, EvEditUserAuth label p b (Some m) ∈ evs →
    c = Return (None, Some (Foreign m))
    ∧ ∃ pre, evs = pre ++ [EvEditUserAuth label p b (Some m)] ∧ Forall notEditSave pre.

(** [m] persists what it edits: whatever quiet events follow, the trace it
    adds satisfies [savedAfterEdit]; when it fails with
    [IncompleteAuthentication], a persist call that succeeded is in it;
    and an edit that failed ends it. *)
Definition persists {A} (m : M GoResult A) : Prop :=
  ∀ st, ∃ evs,
    trace (m st).2 = trace st ++ evs
    ∧ (∀ post, Forall notEditSave post → savedAfterEdit (evs ++ post))
    ∧ (∀ d, (m st).1 = Return (d, Some IncompleteAuthentication) →
       ∃ url p, EvSaveUserAuth url p None ∈ evs)
    ∧ failedEditEnds evs (m st).1.

(** The store's designated current server: the first registered server
    whose name or URL is [CurrentServer]; without a designation, or
    without a match, the first registered server. *)
Definition namedCurrent (w : World) (p : ptr) : bool :=
  match lookupServer w p with
  | Some s =>
    bool_decide (AuthServer.Name s = CurrentServer w ∨ AuthServer.URL s = CurrentServer w)
  | None => false
  end.

Definition designatedOrFirst (w : World) : option ptr :=
  match (if decide (CurrentServer w = "") then None
         else List.find (namedCurrent w) (Servers w)) with
  | Some p => Some p
  | None => head (Servers w)
  end.

(** Every registered server is a live record. *)
Definition registered (w : World) : Prop :=
  Forall (λ p, is_Some (lookupServer w p)) (Servers w).

(** The six fields of the result that do not hold the provider handle. *)
Definition sameButHandle (d1 d2 : CreateRepoData.t) : Prop :=
  CreateRepoData.Organisation d1 = CreateRepoData.Organisation d2
  ∧ CreateRepoData.RepoName d1 = CreateRepoData.RepoName d2
  ∧ CreateRepoData.FullName d1 = CreateRepoData.FullName d2
  ∧ CreateRepoData.PrivateRepo d1 = CreateRepoData.PrivateRepo d2
  ∧ CreateRepoData.User d1 = CreateRepoData.User d2
  ∧ CreateRepoData.Server d1 = CreateRepoData.Server d2.

(** [m] keeps a property [I] of the options and adds to the trace only
    events that satisfy [φ]. *)
Definition keeps {R A} (I : GitRepositoryOptions.t → Prop) (φ : Event → Prop)
    (m : M R A) : Prop :=
  ∀ st, I (opts st) →
        I (opts (m st).2)
        ∧ ∃ evs, trace (m st).2 = trace st ++ evs ∧ Forall φ evs.

(** A call to the store, to a picker, to the Prompt Engine or to the
    provider's validation is warranted by what the caller left out:
    [url], [un], [ow] and [rn] are the server URL, the user name, the
    owner and the repository name of the options. *)
Definition warranted `{Collaborators} (batchMode : bool) (server userAuth : ptr)
    (allowExistingRepo : bool) (url un ow rn : string) (e : Event) : Prop :=
  match e with
  | EvGetOrCreateServer u => server = None ∧ u = url ∧ url ≠ ""
  | EvPickServer _ _ => batchMode = false ∧ server = None ∧ url = ""
  | EvGetOrCreateUserAuth _ n => userAuth = None ∧ n = un ∧ un ≠ ""
  | EvFindUserAuth _ _ => batchMode = true ∧ userAuth = None ∧ un = ""
  | EvPickServerUserAuth _ _ _ => batchMode = false ∧ userAuth = None ∧ un = ""
  | EvPickOrganisation _ => batchMode = false ∧ ow = ""
  | EvAskOne _ _ => batchMode = false ∧ rn = ""
  | EvValidateRepositoryName _ name _ =>
    batchMode = false ∧ rn = "" ∧ allowExistingRepo = false ∧ TrimSpace name ≠ ""
  | _ => True
  end.

(** [u] with another token. *)
Definition withToken (u : UserAuth.t) (token : string) : UserAuth.t :=
  UserAuth.mk (UserAuth.Username u) token.

(** [w] with the credential at [l] replaced. *)
Definition withUser (w : World) (l : loc) (u : UserAuth.t) : World :=
  mkWorld (<[l := u]> (userHeap w)) (serverHeap w) (Servers w) (CurrentServer w)
    (stdin w).

(** The validator of [GetRepoName] lets [name] pass. *)
Definition accepted `{Collaborators} (allowExistingRepo : bool)
    (provider : option GitProvider.t) (owner name : string) : Prop :=
  TrimSpace name ≠ ""
  ∧ (allowExistingRepo = true
     ∨ ∃ p, provider = Some p ∧ GitProvider.ValidateRepositoryName p owner name = None).

(** The events of the interactive name stage for [owner]: the prompt, and
    validations of non-blank names for that owner when reuse is not
    allowed. *)
Definition nameEvent `{Collaborators} (allowExistingRepo : bool) (owner : string)
    (e : Event) : Prop :=
  match e with
  | EvAskOne _ _ => True
  | EvValidateRepositoryName o name _ =>
    o = owner ∧ TrimSpace name ≠ "" ∧ allowExistingRepo = false
  | _ => False
  end.

(** The two lines printed before the provider is bound. *)
Definition usingLine `{Collaborators} (s : AuthServer.t) : Event :=
  EvOut ("Using Git provider " +:+ ColorInfo (Description s) +:+ newline).

Definition aboutLine `{Collaborators} (defaultRepoName url gitUsername : string) : Event :=
  EvOut (newline +:+ newline +:+ "About to create repository "
         +:+ ColorInfo defaultRepoName +:+ " on server " +:+ ColorInfo url
         +:+ " with user " +:+ ColorInfo gitUsername +:+ newline).

(** Lines 105-166, with the server and the credential resolved. *)
Definition afterCredential `{Collaborators} (batchMode : bool)
    (authConfigSvc : ConfigService.t) (defaultRepoName : string) (server : ptr)
    (url : string) (userAuth : ptr) (git : Gitter.t) (allowExistingRepo : bool)
    : M GoResult Empty_set :=
  applyToken userAuth;;
  editFlow batchMode authConfigSvc server url userAuth;;
  u ← derefUser userAuth;
  let gitUsername := UserAuth.Username u in
  emit (aboutLine defaultRepoName url gitUsername);;
  bindAndAssemble batchMode defaultRepoName server userAuth git allowExistingRepo
    gitUsername.

(** Lines 77-166, with the server resolved. *)
Definition afterServer `{Collaborators} (batchMode : bool)
    (authConfigSvc : ConfigService.t) (defaultRepoName : string) (server userAuth : ptr)
    (git : Gitter.t) (allowExistingRepo : bool) : M GoResult Empty_set :=
  s ← derefServer server;
  emit (usingLine s);;
  let url := AuthServer.URL s in
  userAuth ← resolveUserAuth batchMode server url userAuth;
  afterCredential batchMode authConfigSvc defaultRepoName server url userAuth git
    allowExistingRepo.

(** [st] with one more event. *)
Definition say (e : Event) (st : State) : State :=
  mkState (world st) (opts st) (trace st ++ [e]).

(** The events of the stages before the provider is bound, and of the
    stages after it. *)
Definition beforeProvider (e : Event) : Prop :=
  match e with
  | EvCreateProvider _ _ | EvPickOrganisation _ | EvAskOne _ _
  | EvValidateRepositoryName _ _ _ => False
  | _ => True
  end.

Definition afterProvider (e : Event) : Prop :=
  match e with
  | EvPickOrganisation _ | EvAskOne _ _ | EvValidateRepositoryName _ _ _
  | EvOut _ => True
  | _ => False
  end.

(** Nothing, or one call of [CreateProvider] followed by events of the
    owner and name stages. *)
Definition providerPhase (evs : list Event) : Prop :=
  match evs with
  | [] => True
  | e :: rest => (∃ server userAuth, e = EvCreateProvider server userAuth)
                 ∧ Forall afterProvider rest
  end.

(** The trace [m] adds is a first part before the provider is bound and
    a second part that starts with binding it. *)
Definition phased {A} (m : M GoResult A) : Prop :=
  ∀ st, ∃ front back,
    trace (m st).2 = trace st ++ front ++ back
    ∧ Forall beforeProvider front
    ∧ providerPhase back.

(* ===================================================================== *)
(** ** Rules for [runs] *)
(* ===================================================================== *)

Section Rules.
Context {R : Type} (φ : Event → Prop) (ρ : R → Prop).

Lemma frame_refl o : frame o o.
Proof. by repeat split. Qed.

Lemma frame_trans o1 o2 o3 : frame o1 o2 → frame o2 o3 → frame o1 o3.
Proof. unfold frame. intros (?&?&?&?&?&?) (?&?&?&?&?&?). repeat split; congruence. Qed.

Lemma evolves_refl st : evolves φ st st.
Proof.
  split; [apply frame_refl|]. exists []. by rewrite app_nil_r.
Qed.

Lemma evolves_trans st1 st2 st3 :
  evolves φ st1 st2 → evolves φ st2 st3 → evolves φ st1 st3.
Proof.
  intros [F1 (e1 & T1 & A1)] [F2 (e2 & T2 & A2)]. split.
  - by eapply frame_trans.
  - exists (e1 ++ e2). rewrite T2, T1, app_assoc. split; [done|].
    by apply Forall_app.
Qed.

Lemma emitted_app st st' evs : trace st' = trace st ++ evs → emitted st st' = evs.
Proof. unfold emitted. intros ->. by rewrite drop_app_length. Qed.

Lemma runs_mret {A} (a : A) : runs φ ρ (mret a : M R A).
Proof. intros st. split; [apply evolves_refl | done]. Qed.

Lemma runs_bind {A B} (m : M R A) (f : A → M R B) :
  runs φ ρ m → (∀ a, runs φ ρ (f a)) → runs φ ρ (m ≫= f).
Proof.
  intros Hm Hf st. specialize (Hm st).
  unfold mbind, M_bind. destruct (m st) as [[a|r|] st1]; simpl in *.
  - destruct Hm as [E1 _]. destruct (Hf a st1) as [E2 Hr].
    split; [by eapply evolves_trans | done].
  - done.
  - done.
Qed.

Lemma runs_ret {A} (r : R) : ρ r → runs φ ρ (ret r : M R A).
Proof. intros H st. split; [apply evolves_refl | done]. Qed.

Lemma runs_panic {A} : runs φ ρ (panic : M R A).
Proof. intros st. split; [apply evolves_refl | done]. Qed.

Lemma runs_emit e : φ e → runs φ ρ (emit e).
Proof.
  intros H st. split; [|done]. split; [apply frame_refl|].
  exists [e]. split; [done|]. by constructor.
Qed.

Lemma runs_getWorld : runs φ ρ getWorld.
Proof. intros st. split; [apply evolves_refl | done]. Qed.

Lemma runs_getOpts : runs φ ρ getOpts.
Proof. intros st. split; [apply evolves_refl | done]. Qed.

Lemma runs_collab {A} (f : World → A * World) : runs φ ρ (collab f).
Proof.
  intros st. unfold collab. destruct (f (world st)) as [a w]. simpl.
  split; [|done]. split; [apply frame_refl|]. exists []. by rewrite app_nil_r.
Qed.

Lemma runs_setServerURL url : runs φ ρ (setServerURL url).
Proof.
  intros st. split; [|done]. split; [by repeat split|].
  exists []. simpl. by rewrite app_nil_r.
Qed.

Lemma runs_derefServer p : runs φ ρ (derefServer p).
Proof.
  intros st. unfold derefServer. destruct (lookupServer _ _);
    (split; [apply evolves_refl | done]).
Qed.

Lemma runs_derefUser p : runs φ ρ (derefUser p).
Proof.
  intros st. unfold derefUser. destruct (lookupUser _ _);
    (split; [apply evolves_refl | done]).
Qed.

Lemma runs_setApiToken p token : runs φ ρ (setApiToken p token).
Proof.
  intros st. unfold setApiToken. destruct p as [l|]; [destruct (_ !! l)|];
    simpl; (split; [|done]); try apply evolves_refl.
  split; [apply frame_refl|]. exists []. simpl. by rewrite app_nil_r.
Qed.

Lemma runs_setStdin script : runs φ ρ (setStdin script).
Proof.
  intros st. split; [|done]. split; [apply frame_refl|].
  exists []. simpl. by rewrite app_nil_r.
Qed.

Lemma runs_call {R'} (ρ' : R' → Prop) (body : M R' Empty_set) :
  runs φ ρ' body → runs φ ρ (call body).
Proof.
  intros H st. specialize (H st). unfold call.
  destruct (body st) as [[[]|r|] st1]; simpl in *; by destruct H.
Qed.

Lemma runs_mapM {A B} (f : A → M R B) (l : list A) :
  (∀ a, runs φ ρ (f a)) → runs φ ρ (mapM f l).
Proof.
  intros Hf. induction l as [|a l IH]; simpl.
  - apply runs_mret.
  - apply runs_bind; [done|]. intros b. apply runs_bind; [done|].
    intros k. apply runs_mret.
Qed.

End Rules.

Lemma runs_mono {R A} (φ ψ : Event → Prop) (ρ σ : R → Prop) (m : M R A) :
  (∀ e, φ e → ψ e) → (∀ r, ρ r → σ r) → runs φ ρ m → runs ψ σ m.
Proof.
  intros Hφ Hρ H st. destruct (H st) as [[F (evs & T & A')] Hr]. split.
  - split; [done|]. exists evs. split; [done|]. by eapply Forall_impl.
  - destruct ((m st).1); auto.
Qed.

(** One step of a proof of [runs]: the rule of the head construct, or a
    case split on what a branch looks at. *)
Ltac runs_step :=
  lazymatch goal with
  | |- runs _ _ (mret _) => apply runs_mret
  | |- runs _ _ (mbind _ _) => apply runs_bind; [|intros ?]
  | |- runs _ _ (ret _) => apply runs_ret
  | |- runs _ _ panic => apply runs_panic
  | |- runs _ _ (emit _) => apply runs_emit
  | |- runs _ _ getWorld => apply runs_getWorld
  | |- runs _ _ getOpts => apply runs_getOpts
  | |- runs _ _ (collab _) => apply runs_collab
  | |- runs _ _ (setServerURL _) => apply runs_setServerURL
  | |- runs _ _ (derefServer _) => apply runs_derefServer
  | |- runs _ _ (derefUser _) => apply runs_derefUser
  | |- runs _ _ (setApiToken _ _) => apply runs_setApiToken
  | |- runs _ _ (setStdin _) => apply runs_setStdin
  | |- runs _ _ (mapM _ _) => apply runs_mapM; intros ?
  | |- runs _ _ (match ?x with _ => _ end) => destruct x eqn:?
  | |- runs _ _ (let _ := _ in _) => cbv zeta
  end.

Ltac runs_auto := repeat (cbv beta; runs_step).

Section Blocks.
Context `{C : Collaborators}.

Lemma runs_rangeServers {R} φ (ρ : R → Prop) cur servers server :
  runs φ ρ (rangeServers cur servers server).
Proof.
  induction servers as [|s rest IH]; simpl; runs_auto. apply IH.
Qed.

Lemma runs_askLoop {R} φ (ρ : R → Prop) validator response script :
  (∀ v, runs φ ρ (validator v)) → runs φ ρ (askLoop validator response script).
Proof.
  intros Hv. induction script as [|[answer|cause] rest IH]; simpl; runs_auto;
    auto.
Qed.

Lemma foreign_earlyFailure m : earlyFailure (None, foreign (Some m)).
Proof. by exists (Foreign m). Qed.

Lemma Errorf_earlyFailure msg :
  msg ≠ "You did not properly define the user authentication" →
  earlyFailure (None, Some (Errorf msg)).
Proof. intros H. exists (Errorf msg). split; [done|]. intros [= ?]. done. Qed.

Lemma runs_resolveServer batchMode server :
  runs (quiet batchMode) earlyFailure (resolveServer batchMode server).
Proof.
  unfold resolveServer. runs_auto.
  all: try apply runs_rangeServers.
  all: try apply foreign_earlyFailure.
  all: try (by apply Errorf_earlyFailure).
  all: by (split; [intros [=]|]).
Qed.

Lemma runs_resolveUserAuth batchMode server url userAuth :
  runs (quiet batchMode) earlyFailure (resolveUserAuth batchMode server url userAuth).
Proof.
  unfold resolveUserAuth. runs_auto.
  all: try apply foreign_earlyFailure.
  all: try (by apply Errorf_earlyFailure).
  all: by (split; [intros [=]|]).
Qed.

Lemma runs_applyToken batchMode userAuth :
  runs (quiet batchMode) earlyFailure (applyToken userAuth).
Proof. unfold applyToken. runs_auto. Qed.

Lemma runs_GetOwner batchMode provider gitUsername :
  runs (quiet batchMode) (λ _, True) (GetOwner batchMode provider gitUsername).
Proof.
  unfold GetOwner. runs_auto; try done.
  all: by (split; [intros [=]|]).
Qed.

Lemma runs_GetRepoName batchMode allowExistingRepo provider defaultRepoName owner :
  runs (quiet batchMode) (λ _, True)
    (GetRepoName batchMode allowExistingRepo provider defaultRepoName owner).
Proof.
  unfold GetRepoName, AskOne. runs_auto; try done.
  all: try (by (split; [intros [=]|])).
  apply runs_askLoop. intros v. unfold validator. runs_auto.
  all: by (split; [intros [=]|]).
Qed.

Lemma runs_bindAndAssemble batchMode defaultRepoName server userAuth git
    allowExistingRepo gitUsername :
  runs (quiet batchMode) (λ _, True)
    (bindAndAssemble batchMode defaultRepoName server userAuth git allowExistingRepo
       gitUsername).
Proof.
  unfold bindAndAssemble, resolveOwner, resolveRepoName. runs_auto; try done.
  - eapply runs_call, runs_GetOwner.
  - eapply runs_call, runs_GetRepoName.
Qed.

Lemma runs_editFlow batchMode authConfigSvc server url userAuth :
  runs (mainEvent batchMode) (λ _, True)
    (editFlow batchMode authConfigSvc server url userAuth).
Proof.
  unfold editFlow. runs_auto; try done.
  intros ->. simpl. reflexivity.
Qed.

Lemma runs_editFlow_early batchMode authConfigSvc server url userAuth :
  runs (λ _, True) (λ r, r.1 = None ∧ r.2 ≠ None)
    (editFlow batchMode authConfigSvc server url userAuth).
Proof. unfold editFlow. runs_auto; done. Qed.

Lemma quiet_mainEvent batchMode e : quiet batchMode e → mainEvent batchMode e.
Proof. by intros [? _]. Qed.

Lemma runs_main batchMode authConfigSvc defaultRepoName server userAuth git
    allowExistingRepo :
  runs (mainEvent batchMode) (λ _, True)
    (PickNewOrExistingGitRepository batchMode authConfigSvc defaultRepoName server
       userAuth git allowExistingRepo).
Proof.
  unfold PickNewOrExistingGitRepository. runs_auto; try done.
  - eapply runs_mono, runs_resolveServer; [apply quiet_mainEvent | done].
  - eapply runs_mono, runs_resolveUserAuth; [apply quiet_mainEvent | done].
  - eapply runs_mono, runs_applyToken; [apply quiet_mainEvent | done].
  - apply runs_editFlow.
  - eapply runs_mono, runs_bindAndAssemble; [apply quiet_mainEvent | done].
Qed.


(** *** The owner and name stages, exactly *)

Lemma GetOwner_batch provider gitUsername st :
  GetOwner true provider gitUsername st = (Return (gitUsername, None), st).
Proof. reflexivity. Qed.

Lemma GetOwner_interactive provider gitUsername st :
  GetOwner false provider gitUsername st =
  let '((org, err), w) := PickOrganisation provider gitUsername (world st) in
  (Return match err with
          | Some m => ("", Some (Foreign m))
          | None => (if decide (org = "") then gitUsername else org, None)
          end,
   mkState w (opts st) (trace st ++ [EvPickOrganisation gitUsername])).
Proof.
  unfold GetOwner, mbind, M_bind, emit, collab, ret. simpl.
  destruct (PickOrganisation _ _ _) as [[org [m|]] w]; simpl; [done|].
  by destruct (decide (org = "")).
Qed.

Lemma GetRepoName_batch allowExistingRepo provider defaultRepoName owner st :
  GetRepoName true allowExistingRepo provider defaultRepoName owner st =
  (Return (if decide (defaultRepoName = "") then "dummy" else defaultRepoName, None), st).
Proof.
  unfold GetRepoName, mbind, M_bind. by destruct (decide (defaultRepoName = "")).
Qed.

Lemma askLoop_inv allowExistingRepo provider owner response script st c st' :
  askLoop (validator allowExistingRepo provider owner) response script st = (c, st') →
  match c with
  | Continue (name, None) => TrimSpace name ≠ ""
  | Continue (name, Some e) => name = response ∧ ∃ m, e = Foreign m
  | Return _ => False
  | Panic => True
  end.
Proof.
  revert st. induction script as [|[answer|cause] rest IH]; intros st H; simpl in H.
  - inversion H; subst. split; [done|]. by eexists.
  - unfold mbind, M_bind, setStdin, validator in H. simpl in H.
    destruct (decide (TrimSpace answer = "")) as [E|E]; simpl in H.
    { by apply IH in H. }
    destruct allowExistingRepo; simpl in H.
    { by inversion H; subst. }
    destruct provider as [p|]; simpl in H; [|by inversion H; subst].
    destruct (GitProvider.ValidateRepositoryName p owner answer); simpl in H.
    + by apply IH in H.
    + by inversion H; subst.
  - inversion H; subst. split; [done|]. by eexists.
Qed.

Lemma GetRepoName_interactive_inv allowExistingRepo provider defaultRepoName owner
    st c st' :
  GetRepoName false allowExistingRepo provider defaultRepoName owner st = (c, st') →
  match c with
  | Return (name, None) => name ≠ ""
  | Return (name, Some e) =>
    name = "" ∧ (e = NoRepositoryNameSpecified ∨ ∃ m, e = Foreign m)
  | Continue _ => False
  | Panic => True
  end.
Proof.
  unfold GetRepoName, AskOne, mbind, M_bind, emit, getWorld. simpl.
  destruct (askLoop _ _ _ _) as [[[name [e|]]|r|] st1] eqn:E;
    apply askLoop_inv in E; simpl.
  - destruct E as [-> [m ->]]. intros [= <- <-]. split; [done|]. right. by eexists.
  - destruct (decide (name = "")); intros [= <- <-]; [|done].
    split; [done|]. by left.
  - done.
  - by intros [= <- <-].
Qed.


(** *** Lines 136-166, by cases on what they return *)

Lemma resolveOwner_inv batchMode provider gitUsername st c st' :
  resolveOwner batchMode provider gitUsername None st = (c, st') →
  opts st' = opts st
  ∧ (batchMode = true → world st' = world st)
  ∧ match c with
    | Continue (owner, err) =>
      err = None
      ∧ (GitRepositoryOptions.Owner (opts st) ≠ "" →
         owner = GitRepositoryOptions.Owner (opts st))
      ∧ (GitRepositoryOptions.Owner (opts st) = "" → batchMode = true →
         owner = gitUsername)
      ∧ (owner = "" → GitRepositoryOptions.Owner (opts st) = "" ∧ gitUsername = "")
    | Return r => earlyFailure r
    | Panic => True
    end.
Proof.
  unfold resolveOwner, mbind, M_bind, getOpts, call. simpl.
  destruct (decide (GitRepositoryOptions.Owner (opts st) = "")) as [E|E].
  - destruct batchMode.
    + rewrite GetOwner_batch. intros [= <- <-]. by repeat split.
    + rewrite GetOwner_interactive.
      destruct (PickOrganisation _ _ _) as [[org [m|]] w]; simpl;
        intros [= <- <-]; simpl.
      * repeat split; try done. by exists (Foreign m).
      * repeat split; try done; by destruct (decide (org = "")); simplify_eq.
  - intros [= <- <-]. by repeat split.
Qed.

Lemma resolveRepoName_inv batchMode allowExistingRepo provider defaultRepoName owner
    st c st' :
  resolveRepoName batchMode allowExistingRepo provider defaultRepoName owner None st
  = (c, st') →
  frame (opts st) (opts st')
  ∧ (batchMode = true → world st' = world st)
  ∧ match c with
    | Continue (repoName, err) =>
      err = None
      ∧ repoName ≠ ""
      ∧ (GitRepositoryOptions.RepoName (opts st) ≠ "" →
         repoName = GitRepositoryOptions.RepoName (opts st))
      ∧ (GitRepositoryOptions.RepoName (opts st) = "" → batchMode = true →
         repoName = if decide (defaultRepoName = "") then "dummy" else defaultRepoName)
    | Return r => earlyFailure r
    | Panic => True
    end.
Proof.
  unfold resolveRepoName, mbind, M_bind, getOpts, call. simpl.
  destruct (decide (GitRepositoryOptions.RepoName (opts st) = "")) as [E|E].
  - destruct batchMode.
    + rewrite GetRepoName_batch. intros [= <- <-].
      split; [apply frame_refl|]. repeat split; try done.
      by destruct (decide (defaultRepoName = "")).
    + destruct (GetRepoName false _ _ _ _ _) as [cn stn] eqn:EN.
      pose proof (runs_GetRepoName false allowExistingRepo provider defaultRepoName
                    owner st) as [[Fn _] _].
      rewrite EN in Fn. simpl in Fn.
      apply GetRepoName_interactive_inv in EN.
      destruct cn as [[]|[name [e|]]|]; intros [= <- <-]; simpl.
      * split; [done|]. split; [done|].
        destruct EN as [-> [->|[m ->]]]; by eexists.
      * do 5 (split; [done|]). by intros _ [=].
      * done.
  - intros [= <- <-]. split; [apply frame_refl|]. by repeat split.
Qed.

Lemma bindAndAssemble_inv batchMode defaultRepoName server userAuth git
    allowExistingRepo gitUsername st c st' :
  bindAndAssemble batchMode defaultRepoName server userAuth git allowExistingRepo
    gitUsername st = (c, st') →
  match c with
  | Continue _ => False
  | Panic => True
  | Return (None, e) => earlyFailure (None, e)
  | Return (Some d, e) =>
    e = None
    ∧ assembled batchMode defaultRepoName server userAuth git gitUsername (opts st)
        (world st) d
    ∧ (batchMode = true → world st' = world st)
  end.
Proof.
  unfold bindAndAssemble.
  unfold mbind at 1 2, M_bind at 1 2, emit, getWorld. simpl.
  destruct (CreateProvider server userAuth git (world st)) as [provider [m|]] eqn:EP;
    simpl.
  { intros [= <- <-]. apply foreign_earlyFailure. }
  unfold mbind at 1, M_bind at 1.
  destruct (resolveOwner _ _ _ _ _) as [c1 st1] eqn:E1.
  apply resolveOwner_inv in E1 as (Ho & Hw & Hc1). simpl in Ho, Hw.
  destruct c1 as [[owner err]|r|]; simpl;
    [|by destruct Hc1 as (e & -> & ?); intros [= <- <-]; exists e
     |by intros [= <- <-]].
  destruct Hc1 as (-> & Hown1 & Hown2 & Hown3). simpl in Hown1, Hown2, Hown3.
  unfold mbind at 1, M_bind at 1.
  destruct (resolveRepoName _ _ _ _ _ _ _) as [c2 st2] eqn:E2.
  apply resolveRepoName_inv in E2 as (Hf & Hw2 & Hc2).
  destruct c2 as [[repoName err]|r|]; simpl;
    [|by destruct Hc2 as (e & -> & ?); intros [= <- <-]; exists e
     |by intros [= <- <-]].
  destruct Hc2 as (-> & Hn0 & Hn1 & Hn2).
  unfold mbind, M_bind, emit, getOpts, ret. simpl. intros [= <- <-].
  rewrite Ho in Hf, Hn1, Hn2. destruct Hf as (?&?&?&?&?&Hp).
  split; [done|]. split.
  - unfold assembled. simpl. rewrite EP. by split_and!.
  - simpl. intros Hb. by rewrite Hw2, Hw.
Qed.


(** *** The whole resolver, by cases on what it returns *)

Lemma main_returns batchMode authConfigSvc defaultRepoName server userAuth git
    allowExistingRepo st r st' :
  PickNewOrExistingGitRepository batchMode authConfigSvc defaultRepoName server
    userAuth git allowExistingRepo st = (Return r, st') →
  match r with
  | (Some d, e) =>
    e = None
    ∧ ∃ st1 st4 s u,
        resolveServer batchMode server st = (Continue (CreateRepoData.Server d), st1)
        ∧ lookupServer (world st1) (CreateRepoData.Server d) = Some s
        ∧ frame (opts st) (opts st4)
        ∧ lookupUser (world st4) (CreateRepoData.User d) = Some u
        ∧ assembled batchMode defaultRepoName (CreateRepoData.Server d)
            (CreateRepoData.User d) git (UserAuth.Username u) (opts st4) (world st4) d
        ∧ (batchMode = true → world st' = world st4)
  | (None, e) => e ≠ None
  end.
Proof.
  unfold PickNewOrExistingGitRepository.
  unfold mbind at 1, M_bind at 1.
  destruct (resolveServer batchMode server st) as [c1 st1] eqn:E1.
  pose proof (runs_resolveServer batchMode server st) as [[F1 _] R1].
  rewrite E1 in F1, R1. simpl in F1, R1.
  destruct c1 as [server'|r1|];
    [|by destruct R1 as (e & -> & ?); intros [= <- <-]|done].
  unfold mbind at 1, M_bind at 1, derefServer at 1.
  destruct (lookupServer (world st1) server') as [s|] eqn:Es; [|done].
  unfold mbind at 1, M_bind at 1, emit at 1.
  set (st1' := mkState _ _ _).
  unfold mbind at 1, M_bind at 1.
  destruct (resolveUserAuth batchMode server' (AuthServer.URL s) userAuth st1')
    as [c2 st2] eqn:E2.
  pose proof (runs_resolveUserAuth batchMode server' (AuthServer.URL s) userAuth st1')
    as [[F2 _] R2].
  rewrite E2 in F2, R2. simpl in F2, R2.
  destruct c2 as [userAuth'|r2|];
    [|by destruct R2 as (e & -> & ?); intros [= <- <-]|done].
  unfold mbind at 1, M_bind at 1.
  destruct (applyToken userAuth' st2) as [c3 st3] eqn:E3.
  pose proof (runs_applyToken batchMode userAuth' st2) as [[F3 _] R3].
  rewrite E3 in F3, R3. simpl in F3, R3.
  destruct c3 as [[]|r3|];
    [|by destruct R3 as (e & -> & ?); intros [= <- <-]|done].
  unfold mbind at 1, M_bind at 1.
  destruct (editFlow batchMode authConfigSvc server' (AuthServer.URL s) userAuth' st3)
    as [c4 st4] eqn:E4.
  pose proof (runs_editFlow_early batchMode authConfigSvc server' (AuthServer.URL s)
                userAuth' st3) as [[F4 _] R4].
  rewrite E4 in F4, R4. simpl in F4, R4.
  destruct c4 as [[]|r4|];
    [|by destruct r4 as [[d|] e]; destruct R4; intros [= <- <-]|done].
  unfold mbind at 1, M_bind at 1, derefUser at 1.
  destruct (lookupUser (world st4) userAuth') as [u|] eqn:Eu; [|done].
  unfold mbind at 1, M_bind at 1, emit at 1.
  set (st4' := mkState _ _ _).
  intros H. apply bindAndAssemble_inv in H.
  destruct r as [[d|] e].
  - destruct H as (-> & Ha & Hw). split; [done|].
    pose proof Ha as (HU & HS & _). subst server' userAuth'.
    exists st1, st4, s, u. split_and!; try done.
    eapply frame_trans; [exact F1|]. eapply frame_trans; [exact F2|].
    eapply frame_trans; [exact F3|]. exact F4.
  - by destruct H as (e' & [= ->] & _).
Qed.


(** *** The edit flow persists what it edits *)

Lemma savedAfterEdit_quiet_app pre l :
  Forall notEditSave pre → savedAfterEdit l → savedAfterEdit (pre ++ l).
Proof.
  induction 1 as [|e pre He _ IH]; intros Hl; simpl; [done|].
  destruct e; simpl in He; try done; by apply IH.
Qed.

Lemma savedAfterEdit_quiet l : Forall notEditSave l → savedAfterEdit l.
Proof.
  intros H. rewrite <- (app_nil_r l). by apply savedAfterEdit_quiet_app.
Qed.

Lemma earlyFailure_notIncomplete r : earlyFailure r → notIncomplete r.
Proof. intros (e & -> & H). unfold notIncomplete. simpl. congruence. Qed.

Lemma quiet_no_failedEdit evs label p b m :
  Forall notEditSave evs → EvEditUserAuth label p b (Some m) ∉ evs.
Proof. intros H Hin. rewrite Forall_forall in H. by apply H in Hin. Qed.

Lemma failedEditEnds_quiet {A} evs (c : Ctl GoResult A) :
  Forall notEditSave evs → failedEditEnds evs c.
Proof. intros H label p b m Hin. by destruct (quiet_no_failedEdit _ _ _ _ _ H Hin). Qed.

Lemma persists_bind_l {A B} (m : M GoResult A) (f : A → M GoResult B) :
  runs notEditSave notIncomplete m → (∀ a, persists (f a)) → persists (m ≫= f).
Proof.
  intros Hm Hf st. destruct (Hm st) as [[_ (evs1 & T1 & Q1)] R1].
  unfold mbind, M_bind. destruct (m st) as [[a|r|] st1]; simpl in *.
  - destruct (Hf a st1) as (evs2 & T2 & S2 & I2 & F2). exists (evs1 ++ evs2).
    rewrite T2, T1, app_assoc. split; [done|]. split_and!.
    + intros post Hp. rewrite <- app_assoc. apply savedAfterEdit_quiet_app; auto.
    + intros d E. destruct (I2 d E) as (url & p & ?). exists url, p.
      apply elem_of_app. by right.
    + intros label p b m0 Hin. apply elem_of_app in Hin as [Hin|Hin];
        [by destruct (quiet_no_failedEdit _ _ _ _ _ Q1 Hin)|].
      destruct (F2 _ _ _ _ Hin) as (E & pre & -> & Hp). split; [done|].
      exists (evs1 ++ pre). rewrite app_assoc. split; [done|]. by apply Forall_app.
  - exists evs1. split; [done|]. split_and!.
    + intros post Hp. apply savedAfterEdit_quiet. by apply Forall_app.
    + intros d [= ->]. by destruct R1.
    + by apply failedEditEnds_quiet.
  - exists evs1. split; [done|]. split_and!; [|done|by apply failedEditEnds_quiet].
    intros post Hp. apply savedAfterEdit_quiet. by apply Forall_app.
Qed.

Lemma persists_bind_r {A B} (m : M GoResult A) (f : A → M GoResult B) :
  persists m → (∀ a, runs notEditSave notIncomplete (f a)) → persists (m ≫= f).
Proof.
  intros Hm Hf st. destruct (Hm st) as (evs1 & T1 & S1 & I1 & F1).
  unfold mbind, M_bind. destruct (m st) as [[a|r|] st1]; simpl in *.
  - destruct (Hf a st1) as [[_ (evs2 & T2 & Q2)] R2]. exists (evs1 ++ evs2).
    rewrite T2, T1, app_assoc. split; [done|]. split_and!.
    + intros post Hp. rewrite <- app_assoc. apply S1. by apply Forall_app.
    + intros d E. rewrite E in R2. by destruct R2.
    + intros label p b m0 Hin. apply elem_of_app in Hin as [Hin|Hin].
      * by destruct (F1 _ _ _ _ Hin).
      * by destruct (quiet_no_failedEdit _ _ _ _ _ Q2 Hin).
  - exists evs1. split; [done|]. split_and!; [done| |].
    + intros d [= ->]. by apply (I1 d).
    + intros label p b m0 Hin. destruct (F1 _ _ _ _ Hin) as (E & H).
      split; [by injection E as ->|done].
  - exists evs1. split; [done|]. split_and!; [done| |].
    + intros d [=].
    + intros label p b m0 Hin. by destruct (F1 _ _ _ _ Hin).
Qed.

Lemma mapM_hints server hints st :
  mapM (λ username, emit (R := GoResult) (EvGenerateAccessTokenHint server username))
    hints st
  = (Continue ((λ _, tt) <$> hints),
     mkState (world st) (opts st)
       (trace st ++ (EvGenerateAccessTokenHint server <$> hints))).
Proof.
  revert st. induction hints as [|h hints IH]; intros st; simpl.
  - unfold mret, M_ret. rewrite app_nil_r. by destruct st.
  - unfold mbind at 1, M_bind at 1, emit at 1. unfold mbind at 1, M_bind at 1.
    rewrite IH. simpl. by rewrite <- app_assoc.
Qed.

Lemma hints_quiet server (hints : list string) :
  Forall notEditSave (EvGenerateAccessTokenHint server <$> hints).
Proof. induction hints; simpl; by constructor. Qed.

Lemma bind_eq {R A B} (m : M R A) (f : A → M R B) st :
  (m ≫= f) st
  = match m st with
    | (Continue a, st') => f a st'
    | (Return r, st') => (Return r, st')
    | (Panic, st') => (Panic, st')
    end.
Proof. reflexivity. Qed.

Lemma persists_stay {A} (c : Ctl GoResult A) st :
  (∀ d, c ≠ Return (d, Some IncompleteAuthentication)) →
  ∃ evs, trace st = trace st ++ evs
         ∧ (∀ post, Forall notEditSave post → savedAfterEdit (evs ++ post))
         ∧ (∀ d, c = Return (d, Some IncompleteAuthentication) →
            ∃ url p, EvSaveUserAuth url p None ∈ evs)
         ∧ failedEditEnds evs c.
Proof.
  intros H. exists []. split; [by rewrite app_nil_r|]. split_and!.
  - intros post Hp. by apply savedAfterEdit_quiet.
  - intros d E. by destruct (H d).
  - by apply failedEditEnds_quiet.
Qed.

Lemma failedEditEnds_saved {A} server (hints : list string) label p b url q stored
    (c : Ctl GoResult A) :
  failedEditEnds
    ((EvGenerateAccessTokenHint server <$> hints)
       ++ [EvEditUserAuth label p b None; EvSaveUserAuth url q stored]) c.
Proof.
  intros l p' b' m Hin. apply elem_of_app in Hin as [Hin|Hin].
  - by destruct (quiet_no_failedEdit _ _ _ _ _ (hints_quiet server hints) Hin).
  - apply elem_of_cons in Hin as [|Hin]; [done|].
    by apply list_elem_of_singleton in Hin.
Qed.

Lemma persists_editFlow batchMode authConfigSvc server url userAuth :
  persists (editFlow batchMode authConfigSvc server url userAuth).
Proof.
  intros st.
  destruct (editFlow batchMode authConfigSvc server url userAuth st) as [c st'] eqn:E.
  simpl. unfold editFlow in E.
  rewrite bind_eq in E. unfold derefUser at 1 in E.
  destruct (lookupUser (world st) userAuth) as [u|];
    [|by injection E as <- <-; apply persists_stay].
  destruct (IsInvalid u);
    [|by injection E as <- <-; apply persists_stay].
  rewrite bind_eq in E. unfold derefServer at 1 in E.
  destruct (lookupServer (world st) server) as [s|];
    [|by injection E as <- <-; apply persists_stay].
  rewrite bind_eq in E. unfold collab at 1 in E.
  destruct (EditUserAuth _ _ _ _ _ _) as [[hints err] w1].
  rewrite bind_eq, mapM_hints in E. rewrite bind_eq in E. unfold emit at 1 in E.
  simpl in E.
  destruct err as [m|].
  { injection E as <- <-. simpl. eexists. rewrite <- app_assoc.
    split; [done|]. split_and!; [|by intros d E; inversion E|].
    - intros post Hp. rewrite <- app_assoc.
      apply savedAfterEdit_quiet_app; [apply hints_quiet|]. simpl.
      by apply savedAfterEdit_quiet.
    - intros label p b m0 Hin. apply elem_of_app in Hin as [Hin|Hin];
        [by destruct (quiet_no_failedEdit _ _ _ _ _ (hints_quiet server hints) Hin)|].
      apply list_elem_of_singleton in Hin. injection Hin as -> -> -> ->.
      split; [done|]. eexists. split; [done|apply hints_quiet]. }
  rewrite bind_eq in E. unfold collab at 1 in E. simpl in E.
  destruct (ConfigService.SaveUserAuth _ _ _ _) as [err w2].
  rewrite bind_eq in E. unfold emit at 1 in E. simpl in E.
  assert (∀ post, Forall notEditSave post →
            savedAfterEdit (((EvGenerateAccessTokenHint server <$> hints)
              ++ [EvEditUserAuth (Label s) userAuth batchMode None;
                  EvSaveUserAuth url userAuth err]) ++ post)) as HS.
  { intros post Hp. rewrite <- app_assoc.
    apply savedAfterEdit_quiet_app; [apply hints_quiet|]. simpl.
    split; [done|]. by apply savedAfterEdit_quiet. }
  assert (∀ t : list Event,
            ((t ++ (EvGenerateAccessTokenHint server <$> hints))
               ++ [EvEditUserAuth (Label s) userAuth batchMode None])
              ++ [EvSaveUserAuth url userAuth err]
            = t ++ ((EvGenerateAccessTokenHint server <$> hints)
                 ++ [EvEditUserAuth (Label s) userAuth batchMode None;
                     EvSaveUserAuth url userAuth err])) as HT.
  { intros t. by rewrite <- !app_assoc. }
  destruct err as [m|].
  { injection E as <- <-. simpl. eexists. split; [apply HT|].
    split_and!; [done|by intros d E; inversion E|apply failedEditEnds_saved]. }
  rewrite bind_eq in E. unfold derefUser at 1 in E. simpl in E.
  destruct (lookupUser w2 userAuth) as [u'|].
  2: { injection E as <- <-. simpl. eexists. split; [apply HT|].
       split_and!; [done|by intros d E; inversion E|apply failedEditEnds_saved]. }
  destruct (IsInvalid u'); injection E as <- <-; simpl.
  - eexists. split; [apply HT|]. split_and!; [done| |apply failedEditEnds_saved].
    intros d _. exists url, userAuth. apply elem_of_app. right. set_solver.
  - eexists. split; [apply HT|].
    split_and!; [done|by intros d E; inversion E|apply failedEditEnds_saved].
Qed.

Lemma runs_bindAndAssemble_quiet batchMode defaultRepoName server userAuth git
    allowExistingRepo gitUsername :
  runs notEditSave notIncomplete
    (bindAndAssemble batchMode defaultRepoName server userAuth git allowExistingRepo
       gitUsername).
Proof.
  intros st.
  destruct (runs_bindAndAssemble batchMode defaultRepoName server userAuth git
              allowExistingRepo gitUsername st) as [[F (evs & T & Q)] _].
  split.
  - split; [done|]. exists evs. split; [done|].
    eapply Forall_impl; [exact Q|]. by intros e [_ ?].
  - destruct (bindAndAssemble _ _ _ _ _ _ _ st) as [c st'] eqn:E.
    apply bindAndAssemble_inv in E. simpl.
    destruct c as [[]|[[d|] e]|]; try done.
    + by destruct E as (-> & _).
    + by apply earlyFailure_notIncomplete.
Qed.

Lemma quiet_notEditSave batchMode e : quiet batchMode e → notEditSave e.
Proof. by intros [_ ?]. Qed.

Lemma persists_main batchMode authConfigSvc defaultRepoName server userAuth git
    allowExistingRepo :
  persists
    (PickNewOrExistingGitRepository batchMode authConfigSvc defaultRepoName server
       userAuth git allowExistingRepo).
Proof.
  unfold PickNewOrExistingGitRepository.
  apply persists_bind_l.
  { eapply runs_mono, runs_resolveServer;
      [apply quiet_notEditSave | apply earlyFailure_notIncomplete]. }
  intros server'. apply persists_bind_l; [runs_auto|]. intros s.
  apply persists_bind_l; [by runs_auto|]. intros _.
  apply persists_bind_l.
  { eapply runs_mono, runs_resolveUserAuth;
      [apply quiet_notEditSave | apply earlyFailure_notIncomplete]. }
  intros userAuth'. apply persists_bind_l.
  { eapply runs_mono, (runs_applyToken batchMode);
      [apply quiet_notEditSave | apply earlyFailure_notIncomplete]. }
  intros _. apply persists_bind_r; [apply persists_editFlow|].
  intros _. runs_auto; try done. apply runs_bindAndAssemble_quiet.
Qed.


(** *** The server stage in batch mode *)

Lemma rangeServers_find {R} servers server st :
  Forall (λ p, is_Some (lookupServer (world st) p)) servers →
  rangeServers (R := R) (CurrentServer (world st)) servers server st
  = (Continue (default server (List.find (namedCurrent (world st)) servers)), st).
Proof.
  induction 1 as [|p servers [s Hs] _ IH]; simpl; [done|].
  rewrite bind_eq. unfold derefServer, namedCurrent. rewrite Hs.
  destruct (decide _) as [E|E].
  - by rewrite bool_decide_eq_true_2.
  - by rewrite bool_decide_eq_false_2.
Qed.

Lemma designatedOrFirst_registered w p :
  registered w → designatedOrFirst w = Some p → is_Some (lookupServer w p).
Proof.
  unfold registered, designatedOrFirst. intros Hr H.
  rewrite Forall_forall in Hr. apply Hr.
  destruct (decide (CurrentServer w = "")) as [E|E].
  - destruct (Servers w); simplify_eq/=. set_solver.
  - destruct (List.find _ _) as [q|] eqn:F.
    + simplify_eq. apply find_some in F as [F _]. by apply list_elem_of_In.
    + destruct (Servers w); simplify_eq/=. set_solver.
Qed.

Lemma resolveServer_batch st :
  GitRepositoryOptions.ServerURL (opts st) = "" →
  registered (world st) →
  Servers (world st) ≠ [] →
  ∃ p s,
    designatedOrFirst (world st) = Some p
    ∧ lookupServer (world st) p = Some s
    ∧ resolveServer true None st
      = (Continue p,
         mkState (world st) (withServerURL (opts st) (AuthServer.URL s)) (trace st)).
Proof.
  intros Hurl Hreg Hne.
  destruct (designatedOrFirst (world st)) as [p|] eqn:Hd.
  2: { unfold designatedOrFirst in Hd.
       destruct (if decide _ then _ else _); [done|]. by destruct (Servers (world st)). }
  destruct (designatedOrFirst_registered _ _ Hreg Hd) as [s Hs].
  exists p, s. split; [done|]. split; [done|].
  unfold resolveServer. rewrite bind_eq. unfold getOpts at 1.
  destruct (decide (GitRepositoryOptions.ServerURL (opts st) ≠ "")); [done|].
  rewrite bind_eq, bind_eq. unfold getWorld at 1.
  unfold designatedOrFirst in Hd.
  unfold registered in Hreg.
  destruct (Servers (world st)) as [|p0 rest] eqn:Hl; [done|].
  assert (∀ q, (if decide (CurrentServer (world st) ≠ "")
                then rangeServers (R := GoResult) (CurrentServer (world st)) (p0 :: rest) p0
                else mret p0) st = (Continue q, st) →
               q = p) as Hq.
  { destruct (decide (CurrentServer (world st) ≠ "")) as [E|E].
    - rewrite rangeServers_find by done.
      destruct (decide (CurrentServer (world st) = "")); [done|].
      intros q [= <-]. simpl in Hd.
      destruct (namedCurrent _ p0); [by simplify_eq/=|].
      by destruct (List.find _ rest); simplify_eq/=.
    - destruct (decide (CurrentServer (world st) = "")) as [E'|E'].
      + intros q [= <-]. by simplify_eq/=.
      + by destruct E. }
  assert (∃ q, (if decide (CurrentServer (world st) ≠ "")
                then rangeServers (R := GoResult) (CurrentServer (world st)) (p0 :: rest) p0
                else mret p0) st = (Continue q, st)) as [q Hq'].
  { destruct (decide (CurrentServer (world st) ≠ "")).
    - rewrite rangeServers_find by done. by eexists.
    - by eexists. }
  rewrite Hq'. apply Hq in Hq' as ->.
  rewrite bind_eq. unfold derefServer at 1. rewrite Hs.
  by rewrite bind_eq.
Qed.

Lemma main_no_servers authConfigSvc defaultRepoName userAuth git allowExistingRepo st :
  GitRepositoryOptions.ServerURL (opts st) = "" →
  Servers (world st) = [] →
  PickNewOrExistingGitRepository true authConfigSvc defaultRepoName None userAuth git
    allowExistingRepo st
  = (Return (None, Some NoServersConfigured), st).
Proof.
  intros Hurl Hs. unfold PickNewOrExistingGitRepository, resolveServer.
  rewrite !bind_eq. unfold getOpts at 1.
  destruct (decide (GitRepositoryOptions.ServerURL (opts st) ≠ "")); [done|].
  rewrite !bind_eq. unfold getWorld at 1. by rewrite Hs.
Qed.

(** *** A fully specified invocation *)

Lemma main_fully_specified batchMode authConfigSvc defaultRepoName ls lu git
    allowExistingRepo st s u provider :
  lookupServer (world st) (Some ls) = Some s →
  lookupUser (world st) (Some lu) = Some u →
  IsInvalid u = false →
  CreateProvider (Some ls) (Some lu) git (world st) = (provider, None) →
  GitRepositoryOptions.Owner (opts st) ≠ "" →
  GitRepositoryOptions.RepoName (opts st) ≠ "" →
  ∃ evs,
    PickNewOrExistingGitRepository batchMode authConfigSvc defaultRepoName (Some ls)
      (Some lu) git allowExistingRepo st
    = (Return
         (Some (CreateRepoData.mk
                  (GitRepositoryOptions.Owner (opts st))
                  (GitRepositoryOptions.RepoName (opts st))
                  (Gitter.RepoName git (GitRepositoryOptions.Owner (opts st))
                     (GitRepositoryOptions.RepoName (opts st)))
                  (GitRepositoryOptions.Private (opts st))
                  (Some lu) (Some ls) provider),
          None),
       mkState (world st) (opts st) (trace st ++ evs)).
Proof.
  intros Hs Hu Hv Hp Ho Hn.
  unfold PickNewOrExistingGitRepository, resolveServer, resolveUserAuth, applyToken,
    editFlow, bindAndAssemble, resolveOwner, resolveRepoName.
  unfold mbind, M_bind, mret, M_ret, derefServer, derefUser, emit, getOpts, getWorld,
    ret.
  simpl in *. rewrite Hs. simpl. rewrite Hu. simpl. rewrite Hv. simpl.
  rewrite Hu. simpl. rewrite Hv. simpl. rewrite Hu. simpl. rewrite Hp. simpl.
  destruct (decide (GitRepositoryOptions.Owner (opts st) = "")); [done|]. simpl.
  destruct (decide (GitRepositoryOptions.RepoName (opts st) = "")); [done|]. simpl.
  eexists. rewrite <- !app_assoc. reflexivity.
Qed.


(** *** The prompt for the name asks again after a rejection *)

Lemma askLoop_reprompts (p : GitProvider.t) owner response rejected good rest st :
  Forall (λ name, TrimSpace name ≠ ""
                  ∧ is_Some (GitProvider.ValidateRepositoryName p owner name)) rejected →
  TrimSpace good ≠ "" →
  GitProvider.ValidateRepositoryName p owner good = None →
  askLoop (validator false (Some p) owner) response
    ((Typed <$> rejected) ++ Typed good :: rest) st
  = (Continue (good, None),
     mkState (withStdin (world st) rest) (opts st)
       (trace st
        ++ ((λ name, EvValidateRepositoryName owner name
                       (GitProvider.ValidateRepositoryName p owner name))
              <$> rejected ++ [good]))).
Proof.
  intros Hrej Hg Hok. revert st.
  induction Hrej as [|name rejected [Ht [m Hm]] _ IH]; intros st; simpl.
  - rewrite !bind_eq. unfold setStdin at 1, validator.
    destruct (decide (TrimSpace good = "")); [done|].
    rewrite bind_eq. unfold emit at 1. by rewrite Hok.
  - rewrite !bind_eq. unfold setStdin at 1, validator at 1.
    destruct (decide (TrimSpace name = "")); [done|].
    rewrite bind_eq. unfold emit at 1. rewrite Hm. simpl.
    rewrite IH. simpl. by rewrite <- app_assoc.
Qed.

(** *** The resolver, stage by stage *)

Lemma main_eq batchMode authConfigSvc defaultRepoName server userAuth git
    allowExistingRepo :
  PickNewOrExistingGitRepository batchMode authConfigSvc defaultRepoName server
    userAuth git allowExistingRepo
  = (server ← resolveServer batchMode server;
     afterServer batchMode authConfigSvc defaultRepoName server userAuth git
       allowExistingRepo).
Proof. reflexivity. Qed.

(** *** The stages of a run that returns a result *)

Lemma main_success_stages batchMode authConfigSvc defaultRepoName server userAuth git
    allowExistingRepo st d e st' :
  PickNewOrExistingGitRepository batchMode authConfigSvc defaultRepoName server
    userAuth git allowExistingRepo st = (Return (Some d, e), st') →
  ∃ st1 s st2 st3 st4 u,
    resolveServer batchMode server st = (Continue (CreateRepoData.Server d), st1)
    ∧ lookupServer (world st1) (CreateRepoData.Server d) = Some s
    ∧ resolveUserAuth batchMode (CreateRepoData.Server d) (AuthServer.URL s) userAuth
        (say (usingLine s) st1) = (Continue (CreateRepoData.User d), st2)
    ∧ applyToken (CreateRepoData.User d) st2 = (Continue tt, st3)
    ∧ editFlow batchMode authConfigSvc (CreateRepoData.Server d) (AuthServer.URL s)
        (CreateRepoData.User d) st3 = (Continue tt, st4)
    ∧ lookupUser (world st4) (CreateRepoData.User d) = Some u
    ∧ bindAndAssemble batchMode defaultRepoName (CreateRepoData.Server d)
        (CreateRepoData.User d) git allowExistingRepo (UserAuth.Username u)
        (say (aboutLine defaultRepoName (AuthServer.URL s) (UserAuth.Username u)) st4)
      = (Return (Some d, e), st')
    ∧ frame (opts st) (opts st4).
Proof.
  rewrite main_eq, bind_eq.
  pose proof (runs_resolveServer batchMode server st) as [[F1 _] R1].
  destruct (resolveServer batchMode server st) as [[server'|r1|] st1] eqn:E1;
    simpl in F1, R1; [|by destruct R1 as (e1 & -> & _)|done].
  unfold afterServer. rewrite bind_eq. unfold derefServer at 1.
  destruct (lookupServer (world st1) server') as [s|] eqn:Es; [|done].
  rewrite bind_eq. unfold emit at 1. fold (say (usingLine s) st1).
  cbv zeta. rewrite bind_eq.
  pose proof (runs_resolveUserAuth batchMode server' (AuthServer.URL s) userAuth
                (say (usingLine s) st1)) as [[F2 _] R2].
  destruct (resolveUserAuth batchMode server' (AuthServer.URL s) userAuth _)
    as [[userAuth'|r2|] st2] eqn:E2;
    simpl in F2, R2; [|by destruct R2 as (e2 & -> & _)|done].
  unfold afterCredential. rewrite bind_eq.
  pose proof (runs_applyToken batchMode userAuth' st2) as [[F3 _] R3].
  destruct (applyToken userAuth' st2) as [[[]|r3|] st3] eqn:E3;
    simpl in F3, R3; [|by destruct R3 as (e3 & -> & _)|done].
  rewrite bind_eq.
  pose proof (runs_editFlow_early batchMode authConfigSvc server' (AuthServer.URL s)
                userAuth' st3) as [[F4 _] R4].
  destruct (editFlow batchMode authConfigSvc server' (AuthServer.URL s) userAuth' st3)
    as [[[]|r4|] st4] eqn:E4; simpl in F4, R4;
    [|by destruct r4 as [r4 e4]; destruct R4 as [R4 _]; simpl in R4; subst r4|done].
  rewrite bind_eq. unfold derefUser at 1.
  destruct (lookupUser (world st4) userAuth') as [u|] eqn:Eu; [|done].
  cbv zeta. rewrite bind_eq. unfold emit at 1.
  fold (say (aboutLine defaultRepoName (AuthServer.URL s) (UserAuth.Username u)) st4).
  intros H. pose proof H as H'. apply bindAndAssemble_inv in H' as (_ & A & _).
  destruct A as (HU & HS & _). subst server' userAuth'.
  exists st1, s, st2, st3, st4, u. split_and!; try done.
  eapply frame_trans; [exact F1|]. eapply frame_trans; [exact F2|].
  eapply frame_trans; [exact F3|]. exact F4.
Qed.

(** *** The edit flow, by cases on the editor and the store *)

Lemma editFlow_eq batchMode authConfigSvc server url userAuth st u s hints err w1 :
  lookupUser (world st) userAuth = Some u →
  IsInvalid u = true →
  lookupServer (world st) server = Some s →
  EditUserAuth (Label s) userAuth "" true batchMode (world st) = ((hints, err), w1) →
  editFlow batchMode authConfigSvc server url userAuth st
  = (let shown := EvGenerateAccessTokenHint server <$> hints in
     match err with
     | Some m =>
       (Return (None, Some (Foreign m)),
        mkState w1 (opts st)
          (trace st ++ shown ++ [EvEditUserAuth (Label s) userAuth batchMode (Some m)]))
     | None =>
       let '(stored, w2) := ConfigService.SaveUserAuth authConfigSvc url userAuth w1 in
       let st2 := mkState w2 (opts st)
                    (trace st ++ shown
                     ++ [EvEditUserAuth (Label s) userAuth batchMode None;
                         EvSaveUserAuth url userAuth stored]) in
       match stored with
       | Some m =>
         (Return (None, Some (Errorf ("Failed to store git auth configuration " +:+ m))),
          st2)
       | None =>
         match lookupUser w2 userAuth with
         | Some u2 =>
           if IsInvalid u2
           then (Return
                   (None,
                    Some (Errorf "You did not properly define the user authentication")),
                 st2)
           else (Continue tt, st2)
         | None => (Panic, st2)
         end
       end
     end).
Proof.
  intros Hu Hv Hs He. cbv zeta. unfold editFlow.
  rewrite bind_eq. unfold derefUser at 1. rewrite Hu, Hv.
  rewrite bind_eq. unfold derefServer at 1. rewrite Hs.
  rewrite bind_eq. unfold collab at 1. rewrite He.
  rewrite bind_eq, mapM_hints. rewrite bind_eq. unfold emit at 1. simpl.
  destruct err as [m|]; simpl.
  { by rewrite <- app_assoc. }
  rewrite bind_eq. unfold collab at 1. simpl.
  destruct (ConfigService.SaveUserAuth _ _ _ _) as [stored w2].
  rewrite bind_eq. unfold emit at 1. simpl.
  rewrite <- !app_assoc. simpl.
  destruct stored as [m|]; [done|].
  rewrite bind_eq. unfold derefUser at 1. simpl.
  destruct (lookupUser w2 userAuth) as [u2|]; [|done].
  by destruct (IsInvalid u2).
Qed.

(** *** The provider binding of a result *)

Lemma bindAndAssemble_bound batchMode defaultRepoName server userAuth git
    allowExistingRepo gitUsername st d e st' :
  bindAndAssemble batchMode defaultRepoName server userAuth git allowExistingRepo
    gitUsername st = (Return (Some d, e), st') →
  CreateProvider server userAuth git (world st) = (CreateRepoData.GitProvider d, None).
Proof.
  intros H. pose proof H as H'. apply bindAndAssemble_inv in H' as (_ & A & _).
  destruct A as (_ & _ & HG & _). revert H. unfold bindAndAssemble.
  unfold mbind at 1 2, M_bind at 1 2, emit, getWorld. simpl.
  destruct (CreateProvider server userAuth git (world st)) as [provider [m|]];
    simpl in *; [by intros [=]|]. by rewrite HG.
Qed.

End Blocks.

(* ===================================================================== *)
(** ** The properties of the specification *)
(* ===================================================================== *)

Section Properties.
Context `{C : Collaborators}.

(** C1, as amended.  In every invocation, each call of the credential
    editor that returns without error is followed at once by the persist
    call for the same credential, whatever happens afterwards; and an
    invocation that fails with [IncompleteAuthentication] has made a
    persist call that succeeded.  When the editor returns an error, lines
    118-120 return it before anything is persisted: the resolver returns
    that error without a result, the editor call is the last thing the
    invocation does, and no persist call and no other editor call is made
    in it.  At the edit flow itself: started with an invalid credential
    and an editor that returns the error [m], it returns [m] and leaves
    the world as the editor left it. *)
Theorem edit_flow_persists_after_edit batchMode authConfigSvc defaultRepoName server
    userAuth git allowExistingRepo st :
  let run := PickNewOrExistingGitRepository batchMode authConfigSvc defaultRepoName
               server userAuth git allowExistingRepo st in
  savedAfterEdit (emitted st run.2)
  ∧ (∀ d, run.1 = Return (d, Some IncompleteAuthentication) →
          ∃ url p, EvSaveUserAuth url p None ∈ emitted st run.2)
  ∧ (∀ label p b m, EvEditUserAuth label p b (Some m) ∈ emitted st run.2 →
       run.1 = Return (None, Some (Foreign m))
       ∧ ∃ pre, emitted st run.2 = pre ++ [EvEditUserAuth label p b (Some m)]
                ∧ Forall notEditSave pre)
  ∧ (∀ server' url userAuth' st0 u s hints m w1,
       lookupUser (world st0) userAuth' = Some u →
       IsInvalid u = true →
       lookupServer (world st0) server' = Some s →
       EditUserAuth (Label s) userAuth' "" true batchMode (world st0)
       = ((hints, Some m), w1) →
       editFlow batchMode authConfigSvc server' url userAuth' st0
       = (Return (None, Some (Foreign m)),
          mkState w1 (opts st0)
            (trace st0 ++ (EvGenerateAccessTokenHint server' <$> hints)
             ++ [EvEditUserAuth (Label s) userAuth' batchMode (Some m)]))).
Proof.
  simpl.
  destruct (persists_main batchMode authConfigSvc defaultRepoName server userAuth git
              allowExistingRepo st) as (evs & T & S & I & F).
  rewrite (emitted_app _ _ _ T). split_and!; [|exact I|exact F|].
  - specialize (S [] (List.Forall_nil _)). by rewrite app_nil_r in S.
  - intros server' url userAuth' st0 u s hints m w1 Hu Hv Hs He.
    by rewrite (editFlow_eq _ _ _ _ _ _ _ _ _ _ _ Hu Hv Hs He).
Qed.

(** C2, as amended.  A return carries a result and no error, or an error
    and no result.  In a result the repository name is non-empty, the
    credential and the server are non-nil, and the full name is what the
    [Gitter] makes of owner and name, so it is non-empty when the
    [Gitter] gives every non-empty repository name a non-empty full
    name.  The provider handle is the one [CreateProvider] returned,
    without an error, for the server and the credential of the result,
    in the state [st5] in which lines 136-166 start; it is non-nil when
    [CreateProvider] never returns a nil handle without an error.  The
    owner is non-empty when the options name one, and in both modes when
    the user name of the credential, as line 133 reads it, is non-empty.
    In batch mode the world is the same at the end, so there the last
    two facts are also stated for the final state. *)
Theorem result_complete_on_success batchMode authConfigSvc defaultRepoName server
    userAuth git allowExistingRepo st r st' :
  PickNewOrExistingGitRepository batchMode authConfigSvc defaultRepoName server
    userAuth git allowExistingRepo st = (Return r, st') →
  wellFormed r
  ∧ ∀ d, r.1 = Some d →
      CreateRepoData.RepoName d ≠ ""
      ∧ is_Some (CreateRepoData.User d)
      ∧ is_Some (CreateRepoData.Server d)
      ∧ CreateRepoData.FullName d
        = Gitter.RepoName git (CreateRepoData.Organisation d) (CreateRepoData.RepoName d)
      ∧ (GitRepositoryOptions.Owner (opts st) ≠ "" → CreateRepoData.Organisation d ≠ "")
      ∧ (batchMode = true →
         ∀ u, lookupUser (world st') (CreateRepoData.User d) = Some u →
              UserAuth.Username u ≠ "" → CreateRepoData.Organisation d ≠ "")
      ∧ (batchMode = true →
         CreateRepoData.GitProvider d
         = (CreateProvider (CreateRepoData.Server d) (CreateRepoData.User d) git
              (world st')).1)
      ∧ ((∀ owner name, name ≠ "" → Gitter.RepoName git owner name ≠ "") →
         CreateRepoData.FullName d ≠ "")
      ∧ ∃ st5 u,
          lookupUser (world st5) (CreateRepoData.User d) = Some u
          ∧ bindAndAssemble batchMode defaultRepoName (CreateRepoData.Server d)
              (CreateRepoData.User d) git allowExistingRepo (UserAuth.Username u) st5
            = (Return (Some d, None), st')
          ∧ CreateProvider (CreateRepoData.Server d) (CreateRepoData.User d) git
              (world st5) = (CreateRepoData.GitProvider d, None)
          ∧ (UserAuth.Username u ≠ "" → CreateRepoData.Organisation d ≠ "")
          ∧ ((∀ w p, CreateProvider (CreateRepoData.Server d) (CreateRepoData.User d)
                       git w = (p, None) → is_Some p) →
             is_Some (CreateRepoData.GitProvider d)).
Proof.
  intros H. pose proof H as H0. apply main_returns in H. destruct r as [[d|] e].
  - destruct H as (-> & st1 & st4 & s & u & _ & Hs & F & Hu & A & W).
    apply main_success_stages in H0
      as (_ & s' & _ & _ & st4' & u' & _ & _ & _ & _ & _ & Hu' & HB & _).
    split; [done|]. intros ? [= <-].
    destruct A as (_ & _ & HG & _ & HF & HN & _ & _ & _ & _ & HO).
    destruct F as (_ & _ & _ & FO & _).
    split_and!; try done.
    + destruct (CreateRepoData.User d); [by eexists | done].
    + destruct (CreateRepoData.Server d); [by eexists | done].
    + intros Ho Hd. apply HO in Hd as [Hd _]. by rewrite FO in Hd.
    + intros Hb u0 Hu0 Hn Hd. apply HO in Hd as [_ Hd].
      rewrite (W Hb), Hu in Hu0. by simplify_eq.
    + intros Hb. by rewrite (W Hb).
    + intros Hg. rewrite HF. by apply Hg.
    + pose proof (bindAndAssemble_bound _ _ _ _ _ _ _ _ _ _ _ HB) as HP.
      pose proof HB as HB'. apply bindAndAssemble_inv in HB' as (_ & A' & _).
      destruct A' as (_ & _ & _ & _ & _ & _ & _ & _ & _ & _ & HO').
      exists (say (aboutLine defaultRepoName (AuthServer.URL s') (UserAuth.Username u'))
                st4'), u'.
      split_and!; [exact Hu'|exact HB|exact HP| |].
      * intros Hn Hd. by apply HO' in Hd as [_ Hd].
      * intros Hc. by eapply Hc, HP.
  - split; [by destruct e|]. by intros d [=].
Qed.

(** C3.  A batch-mode invocation never calls the Prompt Engine or a
    picker, and calls the credential editor only with the batch flag set:
    no event of the run puts a question to the human.  This holds for
    every store, so in particular for one with a server and a valid
    credential; and when the credential the resolver arrives at is valid,
    the edit flow does nothing at all. *)
Theorem batch_never_prompts authConfigSvc defaultRepoName server userAuth git
    allowExistingRepo st :
  Forall (λ e, promptsHuman e = false)
    (emitted st
       (PickNewOrExistingGitRepository true authConfigSvc defaultRepoName server
          userAuth git allowExistingRepo st).2)
  ∧ ∀ server' url userAuth' st0 u,
      lookupUser (world st0) userAuth' = Some u →
      IsInvalid u = false →
      editFlow true authConfigSvc server' url userAuth' st0 = (Continue tt, st0).
Proof.
  split.
  - destruct (runs_main true authConfigSvc defaultRepoName server userAuth git
                allowExistingRepo st) as [[_ (evs & T & Q)] _].
    rewrite (emitted_app _ _ _ T). eapply Forall_impl; [exact Q|].
    intros e He. by apply He.
  - intros server' url userAuth' st0 u Hu Hv. unfold editFlow.
    rewrite bind_eq. unfold derefUser. by rewrite Hu, Hv.
Qed.

(** C4.  In batch mode, without a server object and without a server URL
    in the options: with no registered server the resolver fails with
    [NoServersConfigured] and changes nothing; otherwise the server stage
    yields the designated current server (the first registered one whose
    name or URL is [CurrentServer]), or the first registered server when
    none is designated or none matches, records its URL in the options,
    and that server is the one of any result.  The registered servers are
    live records. *)
Theorem batch_server_selection authConfigSvc defaultRepoName userAuth git
    allowExistingRepo st :
  GitRepositoryOptions.ServerURL (opts st) = "" →
  registered (world st) →
  (Servers (world st) = [] →
   PickNewOrExistingGitRepository true authConfigSvc defaultRepoName None userAuth git
     allowExistingRepo st
   = (Return (None, Some NoServersConfigured), st))
  ∧ (Servers (world st) ≠ [] →
     ∃ p s,
       designatedOrFirst (world st) = Some p
       ∧ lookupServer (world st) p = Some s
       ∧ resolveServer true None st
         = (Continue p,
            mkState (world st) (withServerURL (opts st) (AuthServer.URL s)) (trace st))
       ∧ ∀ d e st',
           PickNewOrExistingGitRepository true authConfigSvc defaultRepoName None
             userAuth git allowExistingRepo st = (Return (Some d, e), st') →
           CreateRepoData.Server d = p).
Proof.
  intros Hurl Hreg. split.
  - by apply main_no_servers.
  - intros Hne. destruct (resolveServer_batch st Hurl Hreg Hne) as (p & s & Hd & Hs & Hr).
    exists p, s. split_and!; try done.
    intros d e st' H. apply main_returns in H as (_ & st1 & _ & _ & _ & Hr' & _).
    rewrite Hr in Hr'. by simplify_eq.
Qed.

(** C5.  When the options name a repository, the repository name of any
    result is that name, in batch and in interactive mode, whatever
    [allowExistingRepo] is. *)
Theorem supplied_repo_name_kept batchMode authConfigSvc defaultRepoName server userAuth
    git allowExistingRepo st d e st' :
  GitRepositoryOptions.RepoName (opts st) ≠ "" →
  PickNewOrExistingGitRepository batchMode authConfigSvc defaultRepoName server
    userAuth git allowExistingRepo st = (Return (Some d, e), st') →
  CreateRepoData.RepoName d = GitRepositoryOptions.RepoName (opts st).
Proof.
  intros Hn H. apply main_returns in H as (_ & st1 & st4 & s & u & _ & _ & F & _ & A & _).
  destruct A as (_ & _ & _ & _ & _ & _ & HR & _).
  destruct F as (_ & _ & _ & _ & FR & _). rewrite FR in HR. by apply HR.
Qed.

(** C6.  In batch mode [GetRepoName] returns the default name, or "dummy"
    when the default is empty: a non-empty name, no error, and the state
    untouched; and when the options name no repository, this is the
    repository name of any batch-mode result. *)
Theorem batch_name_default_or_dummy allowExistingRepo provider defaultRepoName owner st :
  let name := if decide (defaultRepoName = "") then "dummy" else defaultRepoName in
  GetRepoName true allowExistingRepo provider defaultRepoName owner st
  = (Return (name, None), st)
  ∧ name ≠ ""
  ∧ ∀ authConfigSvc server userAuth git st0 d e st',
      GitRepositoryOptions.RepoName (opts st0) = "" →
      PickNewOrExistingGitRepository true authConfigSvc defaultRepoName server
        userAuth git allowExistingRepo st0 = (Return (Some d, e), st') →
      CreateRepoData.RepoName d = name.
Proof.
  simpl. split; [apply GetRepoName_batch|]. split.
  - by destruct (decide (defaultRepoName = "")).
  - intros authConfigSvc server userAuth git st0 d e st' Hn H.
    apply main_returns in H as (_ & st1 & st4 & s & u & _ & _ & F & _ & A & _).
    destruct A as (_ & _ & _ & _ & _ & _ & _ & HR & _).
    destruct F as (_ & _ & _ & _ & FR & _). rewrite FR in HR. by apply HR.
Qed.

(** C7, as amended.  In interactive mode a name that the provider rejects
    is asked for again: with the human typing names the provider rejects
    and then one it accepts, [GetRepoName] returns the accepted name and
    no error, having validated each name in turn.  In batch mode
    [GetRepoName] never calls the provider's validation and never returns
    an error. *)
Theorem rejected_name_is_asked_again (p : GitProvider.t) defaultRepoName owner rejected
    good rest st :
  stdin (world st) = (Typed <$> rejected) ++ Typed good :: rest →
  Forall (λ name, TrimSpace name ≠ ""
                  ∧ is_Some (GitProvider.ValidateRepositoryName p owner name)) rejected →
  TrimSpace good ≠ "" →
  good ≠ "" →
  GitProvider.ValidateRepositoryName p owner good = None →
  GetRepoName false false (Some p) defaultRepoName owner st
  = (Return (good, None),
     mkState (withStdin (world st) rest) (opts st)
       (trace st
        ++ EvAskOne "Enter the new repository name: " defaultRepoName
           :: ((λ name, EvValidateRepositoryName owner name
                          (GitProvider.ValidateRepositoryName p owner name))
                 <$> rejected ++ [good])))
  ∧ ∀ allowExistingRepo st0,
      ∃ name, GetRepoName true allowExistingRepo (Some p) defaultRepoName owner st0
              = (Return (name, None), st0).
Proof.
  intros Hin Hrej Ht Hg Hok. split.
  - unfold GetRepoName, AskOne. rewrite !bind_eq. unfold emit at 1.
    rewrite !bind_eq. unfold getWorld at 1. simpl. rewrite Hin.
    rewrite askLoop_reprompts by done. simpl.
    destruct (decide (good = "")); [done|]. simpl.
    by rewrite <- app_assoc.
  - intros allowExistingRepo st0. eexists. apply GetRepoName_batch.
Qed.


(** C9.  With the server object, a valid credential, the owner and the
    repository name all supplied, and a provider that can be constructed,
    the resolver returns a result and leaves the world and the options as
    they were; called again with the same arguments it returns a result
    again, equal to the first in owner, name, full name, visibility,
    credential and server. *)
Theorem fully_specified_idempotent batchMode authConfigSvc defaultRepoName ls lu git
    allowExistingRepo st s u provider :
  lookupServer (world st) (Some ls) = Some s →
  lookupUser (world st) (Some lu) = Some u →
  IsInvalid u = false →
  CreateProvider (Some ls) (Some lu) git (world st) = (provider, None) →
  GitRepositoryOptions.Owner (opts st) ≠ "" →
  GitRepositoryOptions.RepoName (opts st) ≠ "" →
  let first := PickNewOrExistingGitRepository batchMode authConfigSvc defaultRepoName
                 (Some ls) (Some lu) git allowExistingRepo st in
  let second := PickNewOrExistingGitRepository batchMode authConfigSvc defaultRepoName
                  (Some ls) (Some lu) git allowExistingRepo first.2 in
  ∃ d1 d2,
    first.1 = Return (Some d1, None)
    ∧ second.1 = Return (Some d2, None)
    ∧ sameButHandle d1 d2
    ∧ world first.2 = world st ∧ opts first.2 = opts st.
Proof.
  intros Hs Hu Hv Hp Ho Hn. simpl.
  destruct (main_fully_specified batchMode authConfigSvc defaultRepoName ls lu git
              allowExistingRepo st s u provider Hs Hu Hv Hp Ho Hn) as (evs & E).
  rewrite E. simpl.
  destruct (main_fully_specified batchMode authConfigSvc defaultRepoName ls lu git
              allowExistingRepo (mkState (world st) (opts st) (trace st ++ evs))
              s u provider Hs Hu Hv Hp Ho Hn) as (evs' & E').
  rewrite E'. simpl. do 2 eexists. split; [done|]. split; [done|].
  by repeat split.
Qed.

(** C10.  Whatever the invocation does, the options keep every field but
    [ServerURL]; and the visibility of any result is the [Private] flag
    the caller put into the options. *)
Theorem options_frame_and_visibility batchMode authConfigSvc defaultRepoName server
    userAuth git allowExistingRepo st :
  let run := PickNewOrExistingGitRepository batchMode authConfigSvc defaultRepoName
               server userAuth git allowExistingRepo st in
  frame (opts st) (opts run.2)
  ∧ ∀ d e, run.1 = Return (Some d, e) →
           CreateRepoData.PrivateRepo d = GitRepositoryOptions.Private (opts st).
Proof.
  simpl. split.
  - by destruct (runs_main batchMode authConfigSvc defaultRepoName server userAuth git
                   allowExistingRepo st) as [[F _] _].
  - intros d e H.
    destruct (PickNewOrExistingGitRepository _ _ _ _ _ _ _ st) as [c st'] eqn:E.
    simpl in H. subst c.
    apply main_returns in E as (_ & st1 & st4 & s & u & _ & _ & F & _ & A & _).
    destruct A as (_ & _ & _ & HP & _). destruct F as (_ & _ & _ & _ & _ & FP).
    by rewrite HP, FP.
Qed.

End Properties.

(* ===================================================================== *)
(** ** Runs of the resolver against the reference collaborators *)
(* ===================================================================== *)

Section Runs.
Import Reference.

(** The human aborts the token prompt: the editor fails, the resolver
    returns its error, and no persist call is made. *)
Lemma edit_flow_without_persist :
  let run := PickNewOrExistingGitRepository false configService "" (Some 2%positive)
               (Some 2%positive) git false
               (start (store "" [Abort "interrupt"]) noOptions) in
  run.1 = Return (None, Some (Foreign "interrupt"))
  ∧ List.filter (λ e, isEdit e || isSave e) (trace run.2)
    = [EvEditUserAuth "lab" (Some 2%positive) false (Some "interrupt")].
Proof. vm_compute. done. Qed.

(** A credential with a token and no user name: the batch-mode result has
    an empty owner. *)
Lemma result_with_empty_owner :
  let run := PickNewOrExistingGitRepository true configService "" (Some 1%positive)
               (Some 3%positive) git false (start (store "" []) noOptions) in
  ∃ d, run.1 = Return (Some d, None)
       ∧ CreateRepoData.Organisation d = ""
       ∧ CreateRepoData.RepoName d = "dummy".
Proof. eexists. vm_compute. done. Qed.

(** The resolver takes the full name from the [Gitter] as it is: with a
    naming that returns the empty string, the result has an empty full
    name. *)
Lemma result_with_empty_full_name :
  let run := PickNewOrExistingGitRepository true configService "" (Some 1%positive)
               (Some 1%positive) Scenario.nameless false
               (start (store "" []) noOptions) in
  ∃ d, run.1 = Return (Some d, None)
       ∧ CreateRepoData.FullName d = ""
       ∧ CreateRepoData.RepoName d = "dummy".
Proof. eexists. vm_compute. done. Qed.

(** The resolver takes the handle from [CreateProvider] as it is: with a
    constructor that returns neither a handle nor an error, the result has
    a nil provider. *)
Lemma result_with_nil_provider :
  let run := @PickNewOrExistingGitRepository Scenario.handleless true configService ""
               (Some 1%positive) (Some 1%positive) git false
               (start (store "" []) noOptions) in
  ∃ d, run.1 = Return (Some d, None)
       ∧ CreateRepoData.GitProvider d = None
       ∧ CreateRepoData.Organisation d = "alice".
Proof. eexists. vm_compute. done. Qed.

(** In interactive mode an empty pick falls back to the user name of the
    credential: with carol, who has none, the owner of the result is
    empty there too. *)
Lemma interactive_result_with_empty_owner :
  let run := PickNewOrExistingGitRepository false configService "" (Some 1%positive)
               (Some 3%positive) git false
               (start (store "" [Typed ""; Typed "app"]) noOptions) in
  ∃ d, run.1 = Return (Some d, None)
       ∧ CreateRepoData.Organisation d = ""
       ∧ CreateRepoData.RepoName d = "app".
Proof. eexists. vm_compute. done. Qed.

(** In batch mode the default name is taken although the provider rejects
    it, and the resolver returns a result. *)
Lemma batch_ignores_validation :
  let run := PickNewOrExistingGitRepository true configService "taken" None None git
               false (start (store "" []) noOptions) in
  ∃ d p, run.1 = Return (Some d, None)
         ∧ CreateRepoData.RepoName d = "taken"
         ∧ CreateRepoData.GitProvider d = Some p
         ∧ GitProvider.ValidateRepositoryName p (CreateRepoData.Organisation d)
             (CreateRepoData.RepoName d) = Some "repository already exists"
         ∧ List.filter (λ e, match e with EvValidateRepositoryName _ _ _ => true
                             | _ => false end) (trace run.2) = [].
Proof. do 2 eexists. vm_compute. done. Qed.

(** A batch run against the reference store: alice on the first server.
    The reference [Gitter] names every repository, and the reference
    provider constructor returns a handle whenever it returns no error. *)
Lemma result_complete_on_success_witness :
  let st := start (store "" []) noOptions in
  ∃ d st',
    PickNewOrExistingGitRepository true configService "" None None git false st
    = (Return (Some d, None), st')
    ∧ CreateRepoData.RepoName d ≠ ""
    ∧ is_Some (CreateRepoData.User d)
    ∧ is_Some (CreateRepoData.Server d)
    ∧ CreateRepoData.Organisation d ≠ ""
    ∧ CreateRepoData.FullName d ≠ ""
    ∧ is_Some (CreateRepoData.GitProvider d).
Proof.
  cbv zeta. do 2 eexists. split; [vm_compute; reflexivity|].
  edestruct (result_complete_on_success (C := collaborators) true configService ""
               None None git false (start (store "" []) noOptions)) as [_ K];
    [vm_compute; reflexivity|].
  destruct (K _ eq_refl)
    as (HN & HU & HS & _ & _ & HO & _ & HF & st5 & u & _ & _ & _ & _ & HP).
  split_and!; [exact HN|exact HU|exact HS| | |].
  - apply (HO eq_refl (UserAuth.mk "alice" "s3cr3t")); [vm_compute; reflexivity|].
    simpl. discriminate.
  - apply HF. intros owner name Hn. simpl.
    destruct (decide (owner = "")); [done|]. by destruct owner.
  - apply HP. intros w p. simpl. unfold createProvider.
    destruct (lookupServer w _); [|by intros [=]].
    destruct (decide _); [by intros [=]|]. intros [= <-]. by eexists.
Defined.

Lemma batch_server_selection_witness :
  let st := start (store "lab" []) noOptions in
  designatedOrFirst (world st) = Some (Some 2%positive)
  ∧ (Servers (world st) = [] →
     PickNewOrExistingGitRepository true configService "" None None git false st
     = (Return (None, Some NoServersConfigured), st))
  ∧ (Servers (world st) ≠ [] →
     ∃ p s,
       designatedOrFirst (world st) = Some p
       ∧ lookupServer (world st) p = Some s
       ∧ resolveServer true None st
         = (Continue p,
            mkState (world st) (withServerURL (opts st) (AuthServer.URL s)) (trace st))
       ∧ ∀ d e st',
           PickNewOrExistingGitRepository true configService "" None None git false st
           = (Return (Some d, e), st') →
           CreateRepoData.Server d = p).
Proof.
  split; [vm_compute; reflexivity|].
  apply (batch_server_selection configService "" None git false).
  - reflexivity.
  - repeat constructor; eexists; vm_compute; reflexivity.
Defined.

(** The scenario of the specification: the options name the server URL,
    the user and the repository. *)
Lemma supplied_repo_name_kept_witness :
  let st := start (store "" [])
              (GitRepositoryOptions.mk "https://git.example.com" "" "alice" "" ""
                 "myapp" false) in
  ∃ d st',
    PickNewOrExistingGitRepository true configService "" None None git false st
    = (Return (Some d, None), st')
    ∧ CreateRepoData.RepoName d = "myapp"
    ∧ CreateRepoData.Organisation d = "alice"
    ∧ CreateRepoData.FullName d = "alice/myapp"
    ∧ CreateRepoData.PrivateRepo d = false.
Proof.
  do 2 eexists. split; [vm_compute; reflexivity|]. split.
  - eapply (supplied_repo_name_kept true configService "" None None git false
              (start (store "" [])
                 (GitRepositoryOptions.mk "https://git.example.com" "" "alice" "" ""
                    "myapp" false))).
    + simpl. discriminate.
    + vm_compute. reflexivity.
  - vm_compute. done.
Defined.

Lemma rejected_name_is_asked_again_witness :
  let st := start (store "" [Typed "taken"; Typed "fine"; Typed "unread"]) noOptions in
  GetRepoName false false (Some (provider ["taken"])) "" "alice" st
  = (Return ("fine", None),
     mkState (withStdin (world st) [Typed "unread"]) (opts st)
       [EvAskOne "Enter the new repository name: " "";
        EvValidateRepositoryName "alice" "taken" (Some "repository already exists");
        EvValidateRepositoryName "alice" "fine" None])
  ∧ ∀ allowExistingRepo st0,
      ∃ name, GetRepoName true allowExistingRepo (Some (provider ["taken"])) "" "alice" st0
              = (Return (name, None), st0).
Proof.
  apply (rejected_name_is_asked_again (provider ["taken"]) "" "alice" ["taken"] "fine"
           [Typed "unread"]
           (start (store "" [Typed "taken"; Typed "fine"; Typed "unread"]) noOptions)).
  - reflexivity.
  - repeat constructor; [vm_compute; discriminate | eexists; vm_compute; reflexivity].
  - vm_compute. discriminate.
  - discriminate.
  - vm_compute. reflexivity.
Defined.

Lemma fully_specified_idempotent_witness :
  let st := start (store "" [])
              (GitRepositoryOptions.mk "" "" "" "" "acme" "myapp" true) in
  let first := PickNewOrExistingGitRepository false configService "" (Some 1%positive)
                 (Some 1%positive) git false st in
  let second := PickNewOrExistingGitRepository false configService "" (Some 1%positive)
                  (Some 1%positive) git false first.2 in
  ∃ d1 d2,
    first.1 = Return (Some d1, None)
    ∧ second.1 = Return (Some d2, None)
    ∧ sameButHandle d1 d2
    ∧ world first.2 = world st ∧ opts first.2 = opts st.
Proof.
  eapply (fully_specified_idempotent false configService "" 1%positive 1%positive git
            false).
  - vm_compute. reflexivity.
  - vm_compute. reflexivity.
  - vm_compute. reflexivity.
  - vm_compute. reflexivity.
  - simpl. discriminate.
  - simpl. discriminate.
Defined.

(** The human types a token: the editor succeeds, the credential is
    persisted, and the run goes on.  The human aborts the token prompt:
    the editor fails, its error is returned, and the editor call is the
    last event, after the one line printed. *)
Lemma edit_flow_persists_after_edit_witness :
  let st := start (store "" [Typed "t0k3n"])
              (GitRepositoryOptions.mk "" "" "" "" "acme" "app" false) in
  let run := PickNewOrExistingGitRepository false configService "" (Some 2%positive)
               (Some 2%positive) git false st in
  let st2 := start (store "" [Abort "interrupt"]) noOptions in
  let run2 := PickNewOrExistingGitRepository false configService "" (Some 2%positive)
                (Some 2%positive) git false st2 in
  let failed := EvEditUserAuth "lab" (Some 2%positive) false (Some "interrupt") in
  savedAfterEdit (emitted st run.2)
  ∧ List.filter (λ e, isEdit e || isSave e) (trace run.2)
    = [EvEditUserAuth "lab" (Some 2%positive) false None;
       EvSaveUserAuth "https://gitlab.example.org" (Some 2%positive) None]
  ∧ failed ∈ emitted st2 run2.2
  ∧ run2.1 = Return (None, Some (Foreign "interrupt"))
  ∧ ∃ pre, emitted st2 run2.2 = pre ++ [failed] ∧ Forall notEditSave pre.
Proof.
  cbv zeta.
  assert (EvEditUserAuth "lab" (Some 2%positive) false (Some "interrupt")
          ∈ emitted (start (store "" [Abort "interrupt"]) noOptions)
              (PickNewOrExistingGitRepository false configService ""
                 (Some 2%positive) (Some 2%positive) git false
                 (start (store "" [Abort "interrupt"]) noOptions)).2) as Hin.
  { apply (list_elem_of_lookup_2 _ 2%nat). vm_compute. reflexivity. }
  pose proof (edit_flow_persists_after_edit false configService "" (Some 2%positive)
                (Some 2%positive) git false
                (start (store "" [Typed "t0k3n"])
                   (GitRepositoryOptions.mk "" "" "" "" "acme" "app" false))) as H1.
  pose proof (edit_flow_persists_after_edit false configService "" (Some 2%positive)
                (Some 2%positive) git false
                (start (store "" [Abort "interrupt"]) noOptions)) as H2.
  cbv zeta in H1, H2.
  destruct H1 as (S1 & _). destruct H2 as (_ & _ & F2 & _).
  destruct (F2 _ _ _ _ Hin) as (E & P).
  split_and!; [exact S1|vm_compute; reflexivity|exact Hin|exact E|exact P].
Defined.

Lemma batch_never_prompts_witness :
  let st := start (store "lab" []) noOptions in
  let run := PickNewOrExistingGitRepository true configService "" None None git false st in
  (Forall (λ e, promptsHuman e = false) (emitted st run.2)
   ∧ ∀ server' url userAuth' st0 u,
       lookupUser (world st0) userAuth' = Some u →
       IsInvalid u = false →
       editFlow true configService server' url userAuth' st0 = (Continue tt, st0))
  ∧ List.filter isEdit (trace run.2)
    = [EvEditUserAuth "lab" (Some 2%positive) true
         (Some "Running in batch mode and no default API token found")].
Proof.
  split.
  - apply (batch_never_prompts configService "" None None git false).
  - vm_compute. reflexivity.
Defined.

Lemma batch_name_default_or_dummy_witness :
  let st := start (store "" []) noOptions in
  (GetRepoName true false None "" "alice" st = (Return ("dummy", None), st)
   ∧ "dummy" ≠ ""
   ∧ ∀ authConfigSvc server userAuth git st0 d e st',
       GitRepositoryOptions.RepoName (opts st0) = "" →
       PickNewOrExistingGitRepository true authConfigSvc "" server userAuth git false st0
       = (Return (Some d, e), st') →
       CreateRepoData.RepoName d = "dummy")
  ∧ ∃ d st',
      PickNewOrExistingGitRepository true configService "" None None git false st
      = (Return (Some d, None), st')
      ∧ CreateRepoData.RepoName d = "dummy".
Proof.
  split.
  - apply (batch_name_default_or_dummy false None "" "alice").
  - do 2 eexists. split; [vm_compute; reflexivity|].
    destruct (batch_name_default_or_dummy false None "" "alice"
                (start (store "" []) noOptions)) as (_ & _ & Hm).
    eapply (Hm configService None None git (start (store "" []) noOptions) _ None);
      [reflexivity | vm_compute; reflexivity].
Defined.


Lemma options_frame_and_visibility_witness :
  let st := start (store "" [])
              (GitRepositoryOptions.mk "" "github" "" "" "acme" "app" true) in
  let run := PickNewOrExistingGitRepository true configService "" None None git false st in
  (frame (opts st) (opts run.2)
   ∧ ∀ d e, run.1 = Return (Some d, e) → CreateRepoData.PrivateRepo d = true)
  ∧ opts run.2
    = GitRepositoryOptions.mk "https://git.example.com" "github" "" "" "acme" "app" true.
Proof.
  split.
  - apply (options_frame_and_visibility true configService "" None None git false).
  - vm_compute. reflexivity.
Defined.

End Runs.


(* ===================================================================== *)
(** ** Rules for [keeps] *)
(* ===================================================================== *)

Section KeepsRules.
Context {R : Type} (I : GitRepositoryOptions.t → Prop) (φ : Event → Prop).

Lemma keeps_still {A} (m : M R A) :
  (∀ st, opts (m st).2 = opts st ∧ trace (m st).2 = trace st) → keeps I φ m.
Proof.
  intros H st HI. destruct (H st) as [-> ->]. split; [done|].
  exists []. by rewrite app_nil_r.
Qed.

Lemma keeps_mret {A} (a : A) : keeps I φ (mret a : M R A).
Proof. by apply keeps_still. Qed.

Lemma keeps_ret {A} (r : R) : keeps I φ (ret r : M R A).
Proof. by apply keeps_still. Qed.

Lemma keeps_panic {A} : keeps I φ (panic : M R A).
Proof. by apply keeps_still. Qed.

Lemma keeps_getWorld : keeps I φ (getWorld : M R World).
Proof. by apply keeps_still. Qed.

Lemma keeps_getOpts : keeps I φ (getOpts : M R GitRepositoryOptions.t).
Proof. by apply keeps_still. Qed.

Lemma keeps_collab {A} (f : World → A * World) : keeps I φ (collab f : M R A).
Proof.
  apply keeps_still. intros st. unfold collab. by destruct (f (world st)).
Qed.

Lemma keeps_derefServer p : keeps I φ (derefServer p : M R AuthServer.t).
Proof.
  apply keeps_still. intros st. unfold derefServer. by destruct (lookupServer _ _).
Qed.

Lemma keeps_derefUser p : keeps I φ (derefUser p : M R UserAuth.t).
Proof.
  apply keeps_still. intros st. unfold derefUser. by destruct (lookupUser _ _).
Qed.

Lemma keeps_setApiToken p token : keeps I φ (setApiToken p token : M R unit).
Proof.
  apply keeps_still. intros st. unfold setApiToken.
  destruct p as [l|]; [|done]. by destruct (_ !! l).
Qed.

Lemma keeps_setStdin script : keeps I φ (setStdin script : M R unit).
Proof. by apply keeps_still. Qed.

Lemma keeps_emit e : φ e → keeps I φ (emit e : M R unit).
Proof.
  intros H st HI. split; [done|]. exists [e]. split; [done|]. by constructor.
Qed.

Lemma keeps_bind {A B} (m : M R A) (f : A → M R B) :
  keeps I φ m → (∀ a, keeps I φ (f a)) → keeps I φ (m ≫= f).
Proof.
  intros Hm Hf st HI. destruct (Hm st HI) as (HI1 & evs1 & T1 & Q1).
  rewrite bind_eq. destruct (m st) as [[a|r|] st1]; simpl in *.
  - destruct (Hf a st1 HI1) as (HI2 & evs2 & T2 & Q2). split; [done|].
    exists (evs1 ++ evs2). rewrite T2, T1, app_assoc. split; [done|].
    by apply Forall_app.
  - split; [done|]. by exists evs1.
  - split; [done|]. by exists evs1.
Qed.

Lemma keeps_getOpts_bind {B} (f : GitRepositoryOptions.t → M R B) :
  (∀ o, I o → keeps I φ (f o)) → keeps I φ (getOpts ≫= f).
Proof. intros Hf st HI. rewrite bind_eq. simpl. by apply Hf. Qed.

Lemma keeps_call {R'} (body : M R' Empty_set) :
  keeps I φ body → keeps I φ (call body : M R R').
Proof.
  intros H st HI. specialize (H st HI). unfold call.
  by destruct (body st) as [[[]|r|] st1].
Qed.

Lemma keeps_mapM {A B} (f : A → M R B) (l : list A) :
  (∀ a, keeps I φ (f a)) → keeps I φ (mapM f l).
Proof.
  intros Hf. induction l as [|a l IH]; simpl.
  - apply keeps_mret.
  - apply keeps_bind; [done|]. intros b. apply keeps_bind; [done|].
    intros k. apply keeps_mret.
Qed.

Lemma keeps_askLoop validator response script :
  (∀ v, keeps I φ (validator v)) → keeps I φ (askLoop (R := R) validator response script).
Proof.
  intros Hv. induction script as [|[answer|cause] rest IH]; simpl.
  - apply keeps_mret.
  - apply keeps_bind; [apply keeps_setStdin|]. intros _.
    apply keeps_bind; [done|]. intros [e|]; [done | apply keeps_mret].
  - apply keeps_bind; [apply keeps_setStdin|]. intros _. apply keeps_mret.
Qed.

End KeepsRules.

Ltac keeps_step :=
  lazymatch goal with
  | |- keeps _ _ (mret _) => apply keeps_mret
  | |- keeps _ _ (mbind _ getOpts) =>
    apply keeps_getOpts_bind; let o := fresh "o" in intros o ?
  | |- keeps _ _ (mbind _ _) => apply keeps_bind; [|intros ?]
  | |- keeps _ _ (ret _) => apply keeps_ret
  | |- keeps _ _ panic => apply keeps_panic
  | |- keeps _ _ (emit _) => apply keeps_emit
  | |- keeps _ _ getWorld => apply keeps_getWorld
  | |- keeps _ _ getOpts => apply keeps_getOpts
  | |- keeps _ _ (collab _) => apply keeps_collab
  | |- keeps _ _ (derefServer _) => apply keeps_derefServer
  | |- keeps _ _ (derefUser _) => apply keeps_derefUser
  | |- keeps _ _ (setApiToken _ _) => apply keeps_setApiToken
  | |- keeps _ _ (setStdin _) => apply keeps_setStdin
  | |- keeps _ _ (call _) => apply keeps_call
  | |- keeps _ _ (mapM _ _) => apply keeps_mapM; intros ?
  | |- keeps _ _ (askLoop _ _ _) => apply keeps_askLoop; intros ?
  | |- keeps _ _ (match ?x with _ => _ end) => destruct x eqn:?
  | |- keeps _ _ (let _ := _ in _) => cbv zeta
  end.

Ltac keeps_auto := repeat (cbv beta; keeps_step).


(* ===================================================================== *)
(** ** Further properties of the resolver *)
(* ===================================================================== *)

Section Stages.
Context `{C : Collaborators}.

(** *** Every call is warranted *)

Lemma not_not_empty (x : string) : ¬ x ≠ "" → x = "".
Proof. intros H. by destruct (decide (x = "")). Qed.

Lemma afterServer_warranted batchMode authConfigSvc defaultRepoName server0 server
    userAuth git allowExistingRepo url o0 :
  keeps (λ o, o = o0)
    (warranted batchMode server0 userAuth allowExistingRepo url
       (GitRepositoryOptions.Username o0) (GitRepositoryOptions.Owner o0)
       (GitRepositoryOptions.RepoName o0))
    (afterServer batchMode authConfigSvc defaultRepoName server userAuth git
       allowExistingRepo).
Proof.
  unfold afterServer, afterCredential, resolveUserAuth, applyToken, editFlow,
    bindAndAssemble, resolveOwner, resolveRepoName, GetOwner, GetRepoName, AskOne,
    validator, usingLine, aboutLine.
  keeps_auto; subst; simpl; try done.
  all: repeat split; try done; try (by apply not_not_empty).
Qed.

Lemma resolveServer_warranted batchMode server userAuth allowExistingRepo un ow rn st :
  ∃ evs,
    trace (resolveServer batchMode server st).2 = trace st ++ evs
    ∧ Forall (warranted batchMode server userAuth allowExistingRepo
                (GitRepositoryOptions.ServerURL (opts st)) un ow rn) evs.
Proof.
  set (φ := warranted _ _ _ _ _ _ _ _).
  assert (∀ m : M GoResult ptr, runs φ (λ _, True) m →
            ∃ evs, trace (m st).2 = trace st ++ evs ∧ Forall φ evs) as Hrun.
  { intros m H. exact (proj2 (proj1 (H st))). }
  unfold resolveServer. destruct server as [l|].
  { apply Hrun. apply runs_mret. }
  rewrite bind_eq. unfold getOpts at 1.
  destruct (decide (GitRepositoryOptions.ServerURL (opts st) ≠ "")) as [E|E].
  - apply Hrun. runs_auto. by subst φ.
  - apply not_not_empty in E. apply Hrun. runs_auto; try done.
    all: try apply runs_rangeServers.
    all: by subst φ.
Qed.

(** X1: the resolver asks the store, the human and the provider only for
    what the caller left out.  The store is asked for a server only when
    no server object is given and for the URL of the options; a picker or
    the Prompt Engine is called only in interactive mode and only for the
    input that is missing (server, credential, owner, repository name);
    the store is asked for the current user only in batch mode; and the
    provider validates a name only in interactive mode, when the options
    name no repository, reuse is not allowed and the name is not
    blank. *)
Theorem every_call_is_warranted batchMode authConfigSvc defaultRepoName server userAuth
    git allowExistingRepo st :
  Forall
    (warranted batchMode server userAuth allowExistingRepo
       (GitRepositoryOptions.ServerURL (opts st)) (GitRepositoryOptions.Username (opts st))
       (GitRepositoryOptions.Owner (opts st)) (GitRepositoryOptions.RepoName (opts st)))
    (emitted st
       (PickNewOrExistingGitRepository batchMode authConfigSvc defaultRepoName server
          userAuth git allowExistingRepo st).2).
Proof.
  rewrite main_eq, bind_eq.
  destruct (resolveServer_warranted batchMode server userAuth allowExistingRepo
              (GitRepositoryOptions.Username (opts st))
              (GitRepositoryOptions.Owner (opts st))
              (GitRepositoryOptions.RepoName (opts st)) st) as (evs1 & T1 & Q1).
  destruct (runs_resolveServer batchMode server st) as [[F1 _] _].
  destruct (resolveServer batchMode server st) as [[server'|r|] st1]; simpl in *.
  - destruct F1 as (_ & FU & _ & FO & FR & _).
    destruct (afterServer_warranted batchMode authConfigSvc defaultRepoName server
                server' userAuth git allowExistingRepo
                (GitRepositoryOptions.ServerURL (opts st)) (opts st1) st1 eq_refl)
      as (_ & evs2 & T2 & Q2).
    rewrite FU, FO, FR in Q2.
    rewrite (emitted_app _ _ (evs1 ++ evs2)) by (by rewrite T2, T1, app_assoc).
    by apply Forall_app.
  - by rewrite (emitted_app _ _ _ T1).
  - by rewrite (emitted_app _ _ _ T1).
Qed.


(** *** With the server and a usable credential supplied *)

Lemma main_supplied batchMode authConfigSvc defaultRepoName ls lu git allowExistingRepo
    st s u :
  lookupServer (world st) (Some ls) = Some s →
  lookupUser (world st) (Some lu) = Some u →
  IsInvalid u = false →
  PickNewOrExistingGitRepository batchMode authConfigSvc defaultRepoName (Some ls)
    (Some lu) git allowExistingRepo st
  = bindAndAssemble batchMode defaultRepoName (Some ls) (Some lu) git allowExistingRepo
      (UserAuth.Username u)
      (say (aboutLine defaultRepoName (AuthServer.URL s) (UserAuth.Username u))
         (say (usingLine s) st)).
Proof.
  intros Hs Hu Hv.
  unfold PickNewOrExistingGitRepository, resolveServer, resolveUserAuth, applyToken,
    editFlow, mbind, M_bind, mret, M_ret, derefServer, derefUser, emit, getOpts, say,
    usingLine, aboutLine.
  simpl in *. rewrite Hs. simpl. rewrite Hu. simpl. rewrite Hv. simpl.
  rewrite Hu. simpl. rewrite Hv. simpl. by rewrite Hu.
Qed.

Lemma bindAndAssemble_batch_world defaultRepoName server userAuth git allowExistingRepo
    gitUsername st :
  world (bindAndAssemble true defaultRepoName server userAuth git allowExistingRepo
           gitUsername st).2 = world st.
Proof.
  unfold bindAndAssemble.
  unfold mbind at 1 2, M_bind at 1 2, emit, getWorld. simpl.
  destruct (CreateProvider server userAuth git (world st)) as [provider [m|]]; [done|].
  rewrite bind_eq.
  destruct (resolveOwner _ _ _ _ _) as [c1 st1] eqn:E1.
  apply resolveOwner_inv in E1 as (_ & W1 & _). specialize (W1 eq_refl).
  destruct c1 as [[owner err]|r|]; [|done|done].
  rewrite bind_eq.
  destruct (resolveRepoName _ _ _ _ _ _ _) as [c2 st2] eqn:E2.
  assert (world st2 = world st) as W2.
  { destruct err as [e|].
    - revert E2. unfold resolveRepoName. rewrite bind_eq. unfold getOpts at 1.
      destruct (decide _); [|by intros [= <- <-]].
      unfold call. rewrite bind_eq, GetRepoName_batch. by intros [= <- <-].
    - apply resolveRepoName_inv in E2 as (_ & W2 & _). by rewrite W2. }
  destruct c2 as [[repoName err']|r|]; [|done|done].
  by rewrite !bind_eq.
Qed.


(** *** The server stage and the options *)

Lemma keeps_rangeServers {R} I φ cur servers server :
  keeps I φ (rangeServers (R := R) cur servers server).
Proof.
  induction servers as [|s rest IH]; simpl.
  - apply keeps_mret.
  - apply keeps_bind; [apply keeps_derefServer|]. intros v.
    destruct (decide _); [apply keeps_mret | apply IH].
Qed.

Lemma afterServer_opts batchMode authConfigSvc defaultRepoName server userAuth git
    allowExistingRepo st :
  opts (afterServer batchMode authConfigSvc defaultRepoName server userAuth git
          allowExistingRepo st).2 = opts st.
Proof.
  by destruct (afterServer_warranted batchMode authConfigSvc defaultRepoName None server
                 userAuth git allowExistingRepo "" (opts st) st eq_refl) as [-> _].
Qed.

Lemma resolveServer_opts batchMode server st :
  is_Some server ∨ GitRepositoryOptions.ServerURL (opts st) ≠ "" →
  opts (resolveServer batchMode server st).2 = opts st.
Proof.
  intros H. unfold resolveServer. destruct server as [l|]; [done|].
  destruct H as [[? [=]]|H].
  rewrite bind_eq. unfold getOpts at 1.
  destruct (decide _); [|done].
  rewrite bind_eq. unfold emit at 1, collab. simpl.
  by destruct (GetOrCreateServer _ _).
Qed.

Lemma resolveServer_records batchMode st p st1 :
  GitRepositoryOptions.ServerURL (opts st) = "" →
  resolveServer batchMode None st = (Continue p, st1) →
  ∃ s, lookupServer (world st1) p = Some s
       ∧ opts st1 = withServerURL (opts st) (AuthServer.URL s).
Proof.
  intros Hurl. unfold resolveServer. rewrite bind_eq. unfold getOpts at 1.
  destruct (decide _) as [E|_]; [done|].
  rewrite bind_eq.
  match goal with |- context [match ?m st with _ => _ end] =>
    assert (keeps (λ o, o = opts st) (λ _, True) m) as K;
      [|specialize (K st eq_refl); destruct (m st) as [[p'|r|] st0]] end.
  { keeps_auto; try done. all: apply keeps_rangeServers. }
  all: simpl in K.
  2,3: done.
  destruct K as [K _]. rewrite bind_eq. unfold derefServer at 1.
  destruct (lookupServer (world st0) p') as [s|] eqn:Es; [|done].
  rewrite bind_eq. unfold setServerURL at 1. intros [= <- <-]. simpl.
  exists s. by rewrite K.
Qed.

(** X2: the options object is written only to record the URL of a server
    the resolver had to find itself.  With a server object or a server
    URL supplied, the options are the same after the run, whatever its
    outcome; otherwise the options of a run that returns a result differ
    from the caller's only in [ServerURL], which is the URL the resolved
    server had when it was resolved. *)
Theorem options_written_only_for_server_url batchMode authConfigSvc defaultRepoName
    server userAuth git allowExistingRepo st :
  let run := PickNewOrExistingGitRepository batchMode authConfigSvc defaultRepoName
               server userAuth git allowExistingRepo st in
  (is_Some server ∨ GitRepositoryOptions.ServerURL (opts st) ≠ "" →
   opts run.2 = opts st)
  ∧ (server = None → GitRepositoryOptions.ServerURL (opts st) = "" →
     ∀ d e, run.1 = Return (Some d, e) →
       ∃ st1 s,
         resolveServer batchMode None st = (Continue (CreateRepoData.Server d), st1)
         ∧ lookupServer (world st1) (CreateRepoData.Server d) = Some s
         ∧ opts run.2 = withServerURL (opts st) (AuthServer.URL s)).
Proof.
  simpl. split.
  - intros H. rewrite main_eq, bind_eq.
    pose proof (resolveServer_opts batchMode server st H) as Ho.
    destruct (resolveServer batchMode server st) as [[server'|r|] st1]; simpl in *;
      [|done|done].
    by rewrite afterServer_opts.
  - intros -> Hurl d e H.
    destruct (PickNewOrExistingGitRepository _ _ _ _ _ _ _ st) as [c st'] eqn:E.
    simpl in H. subst c. pose proof E as E'.
    apply main_success_stages in E' as (st1 & s & _ & _ & _ & _ & E1 & Hs & _).
    exists st1, s. split; [done|]. split; [done|]. simpl.
    destruct (resolveServer_records _ _ _ _ Hurl E1) as (s' & Hs' & Ho).
    rewrite Hs in Hs'. injection Hs' as <-.
    rewrite main_eq, bind_eq, E1 in E.
    pose proof (afterServer_opts batchMode authConfigSvc defaultRepoName
                  (CreateRepoData.Server d) userAuth git allowExistingRepo st1) as Ha.
    rewrite E in Ha. simpl in Ha. by rewrite Ha.
Qed.

(** X3: with no server object and a server URL in the options, the server
    is the store's record for that URL, looked up or created, in batch
    and in interactive mode alike; the options are not written, and the
    server of any result is that record. *)
Theorem server_url_selects_store_record batchMode authConfigSvc defaultRepoName userAuth
    git allowExistingRepo st p w1 :
  GitRepositoryOptions.ServerURL (opts st) ≠ "" →
  GetOrCreateServer (GitRepositoryOptions.ServerURL (opts st)) (world st) = (p, w1) →
  resolveServer batchMode None st
  = (Continue p,
     mkState w1 (opts st)
       (trace st ++ [EvGetOrCreateServer (GitRepositoryOptions.ServerURL (opts st))]))
  ∧ ∀ d e st',
      PickNewOrExistingGitRepository batchMode authConfigSvc defaultRepoName None
        userAuth git allowExistingRepo st = (Return (Some d, e), st') →
      CreateRepoData.Server d = p.
Proof.
  intros Hurl Hg.
  assert (resolveServer batchMode None st
          = (Continue p,
             mkState w1 (opts st)
               (trace st
                ++ [EvGetOrCreateServer (GitRepositoryOptions.ServerURL (opts st))])))
    as Hr.
  { unfold resolveServer. rewrite bind_eq. unfold getOpts at 1.
    destruct (decide _); [|done].
    rewrite bind_eq. unfold emit at 1, collab. simpl. by rewrite Hg. }
  split; [done|]. intros d e st' H.
  apply main_success_stages in H as (st1 & _ & _ & _ & _ & _ & E1 & _).
  rewrite Hr in E1. by injection E1 as <- _.
Qed.

(** X4: in interactive mode, with neither a server object nor a server URL,
    the server is the one the human picks, and its URL is recorded in the
    options; when the pick fails, the resolver returns the picker's error
    at once: nothing is printed and the options are not written; and a
    nil server picked without an error makes the resolver panic. *)
Theorem interactive_server_pick authConfigSvc defaultRepoName userAuth git
    allowExistingRepo st p err w1 :
  GitRepositoryOptions.ServerURL (opts st) = "" →
  PickServer "Which Git service?" false (world st) = ((p, err), w1) →
  (∀ m, err = Some m →
     PickNewOrExistingGitRepository false authConfigSvc defaultRepoName None userAuth
       git allowExistingRepo st
     = (Return (None, Some (Foreign m)),
        mkState w1 (opts st) (trace st ++ [EvPickServer "Which Git service?" false])))
  ∧ (err = None → ∀ s, lookupServer w1 p = Some s →
     resolveServer false None st
     = (Continue p,
        mkState w1 (withServerURL (opts st) (AuthServer.URL s))
          (trace st ++ [EvPickServer "Which Git service?" false])))
  ∧ (err = None → p = None →
     (PickNewOrExistingGitRepository false authConfigSvc defaultRepoName None userAuth
        git allowExistingRepo st).1 = Panic).
Proof.
  intros Hurl Hp.
  assert (resolveServer false None st
          = match err with
            | Some m =>
              (Return (None, Some (Foreign m)),
               mkState w1 (opts st) (trace st ++ [EvPickServer "Which Git service?" false]))
            | None =>
              match lookupServer w1 p with
              | Some s =>
                (Continue p,
                 mkState w1 (withServerURL (opts st) (AuthServer.URL s))
                   (trace st ++ [EvPickServer "Which Git service?" false]))
              | None =>
                (Panic,
                 mkState w1 (opts st)
                   (trace st ++ [EvPickServer "Which Git service?" false]))
              end
            end) as Hr.
  { unfold resolveServer. rewrite !bind_eq. unfold getOpts at 1.
    destruct (decide _) as [E|_]; [done|].
    rewrite !bind_eq. unfold emit at 1. rewrite !bind_eq. unfold collab at 1. simpl.
    rewrite Hp. destruct err as [m|]; simpl; [done|].
    rewrite bind_eq. unfold derefServer at 1. simpl.
    destruct (lookupServer w1 p); [|done]. by rewrite !bind_eq. }
  split_and!.
  - intros m ->. by rewrite main_eq, bind_eq, Hr.
  - intros -> s Hs. by rewrite Hr, Hs.
  - intros -> ->. by rewrite main_eq, bind_eq, Hr.
Qed.


(** *** The credential stage *)

Lemma resolveUserAuth_batch server url st s :
  GitRepositoryOptions.Username (opts st) = "" →
  lookupServer (world st) server = Some s →
  resolveUserAuth true server url None st
  = match AuthServer.Users s with
    | [] => (Return (None, Some (NoCredentialsConfigured url)), st)
    | first :: _ =>
      if decide (AuthServer.CurrentUser s = "") then (Continue first, st)
      else
        let '(found, w1) := FindUserAuth url (AuthServer.CurrentUser s) (world st) in
        let st1 := mkState w1 (opts st)
                     (trace st ++ [EvFindUserAuth url (AuthServer.CurrentUser s)]) in
        match found with
        | Some _ => (Continue found, st1)
        | None =>
          match lookupServer w1 server with
          | Some s1 =>
            match AuthServer.Users s1 with
            | first1 :: _ => (Continue first1, st1)
            | [] => (Panic, st1)
            end
          | None => (Panic, st1)
          end
        end
    end.
Proof.
  intros Hun Hs. unfold resolveUserAuth. rewrite bind_eq. unfold getOpts at 1.
  destruct (decide _) as [E|_]; [done|].
  rewrite bind_eq. unfold derefServer at 1. rewrite Hs.
  destruct (AuthServer.Users s) as [|first rest] eqn:Hu; [done|].
  destruct (decide (length (first :: rest) = 0)); [done|].
  rewrite bind_eq.
  destruct (decide (AuthServer.CurrentUser s ≠ "")) as [E|E].
  - destruct (decide (AuthServer.CurrentUser s = "")); [done|].
    rewrite bind_eq. unfold emit at 1, collab. simpl.
    destruct (FindUserAuth _ _ _) as [[f|] w1]; [done|].
    rewrite bind_eq. unfold derefServer. simpl.
    destruct (lookupServer w1 server) as [s1|]; [|done].
    by destruct (AuthServer.Users s1).
  - apply not_not_empty in E. destruct (decide _); [|done].
    unfold mret, M_ret. rewrite bind_eq. unfold derefServer. rewrite Hs.
    by rewrite Hu.
Qed.

(** X5: in batch mode, with no credential and no user name supplied, a
    server without registered credentials makes the resolver fail with
    [NoCredentialsConfigured], whose text names the URL of the server;
    only the "Using Git provider" line has been printed, and neither the
    world nor the options are changed. *)
Theorem batch_without_credentials_fails authConfigSvc defaultRepoName ls git
    allowExistingRepo st s :
  lookupServer (world st) (Some ls) = Some s →
  AuthServer.Users s = [] →
  GitRepositoryOptions.Username (opts st) = "" →
  PickNewOrExistingGitRepository true authConfigSvc defaultRepoName (Some ls) None git
    allowExistingRepo st
  = (Return
       (None,
        Some (Errorf ("Server " +:+ AuthServer.URL s +:+ " has no user auths defined"))),
     say (usingLine s) st).
Proof.
  intros Hs Hu Hun. rewrite main_eq, bind_eq. unfold resolveServer. simpl.
  unfold afterServer. rewrite bind_eq. unfold derefServer at 1. rewrite Hs.
  rewrite bind_eq. unfold emit at 1. fold (say (usingLine s) st). cbv zeta.
  rewrite bind_eq, (resolveUserAuth_batch _ _ _ s) by done. by rewrite Hu.
Qed.

(** X6: in batch mode, with no credential and no user name supplied, and
    a server that designates no current user, the credential stage takes
    the first registered credential of the server without asking the
    store; with the server supplied, it is the credential of any
    result. *)
Theorem batch_takes_first_credential authConfigSvc defaultRepoName ls git allowExistingRepo
    url st s first rest :
  lookupServer (world st) (Some ls) = Some s →
  AuthServer.Users s = first :: rest →
  AuthServer.CurrentUser s = "" →
  GitRepositoryOptions.Username (opts st) = "" →
  resolveUserAuth true (Some ls) url None st = (Continue first, st)
  ∧ ∀ d e st',
      PickNewOrExistingGitRepository true authConfigSvc defaultRepoName (Some ls) None
        git allowExistingRepo st = (Return (Some d, e), st') →
      CreateRepoData.User d = first.
Proof.
  intros Hs Hu Hc Hun.
  assert (∀ url' st0, world st0 = world st → opts st0 = opts st →
            resolveUserAuth true (Some ls) url' None st0 = (Continue first, st0))
    as Hr.
  { intros url' st0 Hw Ho. rewrite (resolveUserAuth_batch _ _ _ s).
    - rewrite Hu. by destruct (decide _).
    - by rewrite Ho.
    - by rewrite Hw. }
  split; [by apply Hr|]. intros d e st' H.
  apply main_success_stages in H as (st1 & s' & st2 & _ & _ & _ & E1 & Hs' & E2 & _).
  unfold resolveServer in E1. injection E1 as E1 <-. rewrite <- E1 in *.
  rewrite Hs in Hs'. injection Hs' as <-.
  rewrite Hr in E2 by done. by injection E2 as <- _.
Qed.

(** X7: in batch mode, with no credential and no user name supplied, and
    a server that designates a current user, the credential stage asks
    the store for the credential of that name on the server and takes
    it; when the store finds none, it takes the first registered
    credential of the server (the store's search leaving the server as it
    was).  With the server supplied, this is the credential of any
    result. *)
Theorem batch_takes_current_credential authConfigSvc defaultRepoName ls git
    allowExistingRepo st s first rest found w1 :
  lookupServer (world st) (Some ls) = Some s →
  AuthServer.Users s = first :: rest →
  AuthServer.CurrentUser s ≠ "" →
  GitRepositoryOptions.Username (opts st) = "" →
  FindUserAuth (AuthServer.URL s) (AuthServer.CurrentUser s) (world st) = (found, w1) →
  lookupServer w1 (Some ls) = Some s →
  let chosen := if found is Some _ then found else first in
  resolveUserAuth true (Some ls) (AuthServer.URL s) None st
  = (Continue chosen,
     mkState w1 (opts st)
       (trace st ++ [EvFindUserAuth (AuthServer.URL s) (AuthServer.CurrentUser s)]))
  ∧ ∀ d e st',
      PickNewOrExistingGitRepository true authConfigSvc defaultRepoName (Some ls) None
        git allowExistingRepo st = (Return (Some d, e), st') →
      CreateRepoData.User d = chosen.
Proof.
  intros Hs Hu Hc Hun Hf Hs1. cbv zeta.
  assert (∀ st0, world st0 = world st → opts st0 = opts st →
            resolveUserAuth true (Some ls) (AuthServer.URL s) None st0
            = (Continue (if found is Some _ then found else first),
               mkState w1 (opts st0)
                 (trace st0
                  ++ [EvFindUserAuth (AuthServer.URL s) (AuthServer.CurrentUser s)])))
    as Hr.
  { intros st0 Hw Ho. rewrite (resolveUserAuth_batch _ _ _ s).
    - rewrite Hu. destruct (decide _); [done|]. rewrite Hw, Hf.
      destruct found; [done|]. simpl in *. by rewrite Hs1, Hu.
    - by rewrite Ho.
    - by rewrite Hw. }
  split; [by apply Hr|]. intros d e st' H.
  apply main_success_stages in H as (st1 & s' & st2 & _ & _ & _ & E1 & Hs' & E2 & _).
  unfold resolveServer in E1. injection E1 as E1 <-. rewrite <- E1 in *.
  rewrite Hs in Hs'. injection Hs' as <-.
  rewrite Hr in E2 by done. by injection E2 as <- _.
Qed.

(** X8: with no credential object and a user name in the options, the
    credential is the store's record for that user on the resolved
    server, looked up or created, in batch and in interactive mode alike;
    with the server supplied, it is the credential of any result. *)
Theorem user_name_selects_store_record batchMode authConfigSvc defaultRepoName ls git
    allowExistingRepo st s p w1 :
  lookupServer (world st) (Some ls) = Some s →
  GitRepositoryOptions.Username (opts st) ≠ "" →
  GetOrCreateUserAuth (AuthServer.URL s) (GitRepositoryOptions.Username (opts st))
    (world st) = (p, w1) →
  ∀ d e st',
    PickNewOrExistingGitRepository batchMode authConfigSvc defaultRepoName (Some ls)
      None git allowExistingRepo st = (Return (Some d, e), st') →
    CreateRepoData.User d = p.
Proof.
  intros Hs Hun Hg d e st' H.
  apply main_success_stages in H as (st1 & s' & st2 & _ & _ & _ & E1 & Hs' & E2 & _).
  unfold resolveServer in E1. injection E1 as E1 <-. rewrite <- E1 in *.
  rewrite Hs in Hs'. injection Hs' as <-.
  revert E2. unfold resolveUserAuth. rewrite bind_eq. unfold getOpts at 1. simpl.
  destruct (decide _) as [_|E]; [|done].
  rewrite bind_eq. unfold emit at 1, collab. simpl. rewrite Hg. by intros [= <- <-].
Qed.


(** *** The token of the options *)

Lemma main_supplied_token batchMode authConfigSvc defaultRepoName ls lu git
    allowExistingRepo st s u :
  lookupServer (world st) (Some ls) = Some s →
  lookupUser (world st) (Some lu) = Some u →
  IsInvalid u = true →
  GitRepositoryOptions.ApiToken (opts st) ≠ "" →
  IsInvalid (withToken u (GitRepositoryOptions.ApiToken (opts st))) = false →
  PickNewOrExistingGitRepository batchMode authConfigSvc defaultRepoName (Some ls)
    (Some lu) git allowExistingRepo st
  = bindAndAssemble batchMode defaultRepoName (Some ls) (Some lu) git allowExistingRepo
      (UserAuth.Username u)
      (say (aboutLine defaultRepoName (AuthServer.URL s) (UserAuth.Username u))
         (say (usingLine s)
            (mkState
               (withUser (world st) lu
                  (withToken u (GitRepositoryOptions.ApiToken (opts st))))
               (opts st) (trace st)))).
Proof.
  intros Hs Hu Hv Ht Hv'.
  unfold PickNewOrExistingGitRepository, resolveServer, resolveUserAuth, applyToken,
    editFlow, mbind, M_bind, mret, M_ret, derefServer, derefUser, emit, getOpts, say,
    usingLine, aboutLine, setApiToken, withToken in *.
  simpl in *. rewrite Hs. simpl. rewrite Hu. simpl. rewrite Hv.
  rewrite bool_decide_eq_true_2 by done. simpl. rewrite Hu. simpl.
  rewrite lookup_insert_eq. simpl. rewrite Hv'. simpl.
  by rewrite lookup_insert_eq.
Qed.

(** X9: a token in the options that makes the supplied credential valid is
    written into the credential, and that is all: the editor is not called
    and the credential is not persisted; in batch mode the world after
    the run is the world before it with that one credential changed. *)
Theorem options_token_is_applied_not_persisted batchMode authConfigSvc defaultRepoName
    ls lu git allowExistingRepo st s u :
  lookupServer (world st) (Some ls) = Some s →
  lookupUser (world st) (Some lu) = Some u →
  IsInvalid u = true →
  GitRepositoryOptions.ApiToken (opts st) ≠ "" →
  IsInvalid (withToken u (GitRepositoryOptions.ApiToken (opts st))) = false →
  let run := PickNewOrExistingGitRepository batchMode authConfigSvc defaultRepoName
               (Some ls) (Some lu) git allowExistingRepo st in
  Forall notEditSave (emitted st run.2)
  ∧ (batchMode = true →
     world run.2
     = withUser (world st) lu (withToken u (GitRepositoryOptions.ApiToken (opts st)))).
Proof.
  intros Hs Hu Hv Ht Hv'. cbv zeta.
  rewrite (main_supplied_token _ _ _ _ _ _ _ _ s u) by done.
  split.
  - match goal with |- context [bindAndAssemble ?b ?d ?sv ?ua ?g ?a ?gu ?st0] =>
      destruct (runs_bindAndAssemble_quiet b d sv ua g a gu st0)
        as [[_ (evs & T & Q)] _] end.
    rewrite (emitted_app _ _ ([usingLine s;
               aboutLine defaultRepoName (AuthServer.URL s) (UserAuth.Username u)] ++ evs)).
    + apply Forall_app. split; [|done]. by repeat constructor.
    + rewrite T. simpl. by rewrite <- !app_assoc.
  - intros ->. by rewrite bindAndAssemble_batch_world.
Qed.

(** X10: a batch run with the server and a valid credential supplied writes
    nothing: whatever its outcome, the world and the options are as they
    were, and neither the editor nor the persist call is made. *)
Theorem batch_run_with_valid_credential_writes_nothing authConfigSvc defaultRepoName ls
    lu git allowExistingRepo st s u :
  lookupServer (world st) (Some ls) = Some s →
  lookupUser (world st) (Some lu) = Some u →
  IsInvalid u = false →
  let run := PickNewOrExistingGitRepository true authConfigSvc defaultRepoName
               (Some ls) (Some lu) git allowExistingRepo st in
  world run.2 = world st
  ∧ opts run.2 = opts st
  ∧ Forall notEditSave (emitted st run.2).
Proof.
  intros Hs Hu Hv. cbv zeta. split_and!.
  - rewrite (main_supplied _ _ _ _ _ _ _ _ s u) by done.
    by rewrite bindAndAssemble_batch_world.
  - rewrite main_eq, bind_eq. unfold resolveServer. simpl.
    by rewrite afterServer_opts.
  - rewrite (main_supplied _ _ _ _ _ _ _ _ s u) by done.
    match goal with |- context [bindAndAssemble ?b ?d ?sv ?ua ?g ?a ?gu ?st0] =>
      destruct (runs_bindAndAssemble_quiet b d sv ua g a gu st0)
        as [[_ (evs & T & Q)] _] end.
    rewrite (emitted_app _ _ ([usingLine s;
               aboutLine defaultRepoName (AuthServer.URL s) (UserAuth.Username u)] ++ evs)).
    + apply Forall_app. split; [|done]. by repeat constructor.
    + rewrite T. simpl. by rewrite <- !app_assoc.
Qed.

(** *** The edit flow and the provider binding *)

Lemma main_to_editFlow batchMode authConfigSvc defaultRepoName ls lu git
    allowExistingRepo st s u :
  lookupServer (world st) (Some ls) = Some s →
  lookupUser (world st) (Some lu) = Some u →
  GitRepositoryOptions.ApiToken (opts st) = "" →
  PickNewOrExistingGitRepository batchMode authConfigSvc defaultRepoName (Some ls)
    (Some lu) git allowExistingRepo st
  = match editFlow batchMode authConfigSvc (Some ls) (AuthServer.URL s) (Some lu)
            (say (usingLine s) st) with
    | (Continue _, st4) =>
      match lookupUser (world st4) (Some lu) with
      | Some u4 =>
        bindAndAssemble batchMode defaultRepoName (Some ls) (Some lu) git
          allowExistingRepo (UserAuth.Username u4)
          (say (aboutLine defaultRepoName (AuthServer.URL s) (UserAuth.Username u4)) st4)
      | None => (Panic, st4)
      end
    | (Return r, st4) => (Return r, st4)
    | (Panic, st4) => (Panic, st4)
    end.
Proof.
  intros Hs Hu Ht. rewrite main_eq, bind_eq. unfold resolveServer. simpl.
  unfold afterServer. rewrite bind_eq. unfold derefServer at 1. rewrite Hs.
  rewrite bind_eq. unfold emit at 1. fold (say (usingLine s) st). cbv zeta.
  rewrite bind_eq. unfold resolveUserAuth. simpl.
  unfold afterCredential. rewrite bind_eq.
  assert (applyToken (Some lu) (say (usingLine s) st) = (Continue tt, say (usingLine s) st))
    as ->.
  { unfold applyToken. rewrite bind_eq. unfold derefUser at 1. simpl in *. rewrite Hu.
    rewrite bind_eq. unfold getOpts at 1. simpl. rewrite Ht.
    by rewrite andb_false_r. }
  rewrite bind_eq.
  destruct (editFlow _ _ _ _ _ _) as [[[]|r|] st4]; [|done|done].
  rewrite bind_eq. unfold derefUser at 1. unfold lookupUser. simpl.
  destruct (userHeap (world st4) !! lu); [|done].
  by rewrite bind_eq.
Qed.

(** X11: how the edit flow fails, with the server and an invalid credential
    supplied and no token in the options.  An error of the credential
    editor is returned as it is.  An error of the store's persist call is
    returned wrapped as "Failed to store git auth configuration ...".  A
    credential that is still invalid after editing and persisting gives
    "You did not properly define the user authentication".  In all three
    cases the run ends there: the trace ends with the editor or the
    persist call, and no provider is constructed. *)
Theorem edit_flow_failures_end_the_run batchMode authConfigSvc defaultRepoName ls lu git
    allowExistingRepo st s u hints err w1 :
  lookupServer (world st) (Some ls) = Some s →
  lookupUser (world st) (Some lu) = Some u →
  IsInvalid u = true →
  GitRepositoryOptions.ApiToken (opts st) = "" →
  EditUserAuth (Label s) (Some lu) "" true batchMode (world st) = ((hints, err), w1) →
  let run := PickNewOrExistingGitRepository batchMode authConfigSvc defaultRepoName
               (Some ls) (Some lu) git allowExistingRepo st in
  let shown := EvGenerateAccessTokenHint (Some ls) <$> hints in
  let edited e := EvEditUserAuth (Label s) (Some lu) batchMode e in
  (∀ m, err = Some m →
     run.1 = Return (None, Some (Foreign m))
     ∧ emitted st run.2 = usingLine s :: shown ++ [edited (Some m)])
  ∧ (err = None → ∀ stored w2,
       ConfigService.SaveUserAuth authConfigSvc (AuthServer.URL s) (Some lu) w1
       = (stored, w2) →
       let saved := EvSaveUserAuth (AuthServer.URL s) (Some lu) stored in
       (∀ m, stored = Some m →
          run.1
          = Return (None, Some (Errorf ("Failed to store git auth configuration " +:+ m)))
          ∧ emitted st run.2 = usingLine s :: shown ++ [edited None; saved])
       ∧ (stored = None → ∀ u2, lookupUser w2 (Some lu) = Some u2 → IsInvalid u2 = true →
          run.1
          = Return (None,
                    Some (Errorf "You did not properly define the user authentication"))
          ∧ emitted st run.2 = usingLine s :: shown ++ [edited None; saved])).
Proof.
  intros Hs Hu Hv Ht He. cbv zeta.
  rewrite (main_to_editFlow _ _ _ _ _ _ _ _ s u) by done.
  rewrite (editFlow_eq batchMode authConfigSvc (Some ls) (AuthServer.URL s) (Some lu)
             (say (usingLine s) st) u s hints err w1) by done.
  cbv zeta. split.
  - intros m ->. split; [done|]. simpl.
    apply emitted_app. by rewrite <- app_assoc.
  - intros -> stored w2 Hsave. rewrite Hsave. split.
    + intros m ->. split; [done|]. simpl. apply emitted_app. by rewrite <- app_assoc.
    + intros -> u2 Hu2 Hv2. rewrite Hu2, Hv2. split; [done|]. simpl.
      apply emitted_app. by rewrite <- app_assoc.
Qed.

(** X12: when the provider cannot be constructed, the resolver returns the
    constructor's error right after the call: in interactive mode too,
    neither the owner nor the repository name is asked for, and nothing
    is changed. *)
Theorem provider_error_stops_the_run batchMode authConfigSvc defaultRepoName ls lu git
    allowExistingRepo st s u provider m :
  lookupServer (world st) (Some ls) = Some s →
  lookupUser (world st) (Some lu) = Some u →
  IsInvalid u = false →
  CreateProvider (Some ls) (Some lu) git (world st) = (provider, Some m) →
  PickNewOrExistingGitRepository batchMode authConfigSvc defaultRepoName (Some ls)
    (Some lu) git allowExistingRepo st
  = (Return (None, Some (Foreign m)),
     say (EvCreateProvider (Some ls) (Some lu))
       (say (aboutLine defaultRepoName (AuthServer.URL s) (UserAuth.Username u))
          (say (usingLine s) st))).
Proof.
  intros Hs Hu Hv Hp. rewrite (main_supplied _ _ _ _ _ _ _ _ s u) by done.
  unfold bindAndAssemble. rewrite !bind_eq. unfold emit at 1.
  rewrite bind_eq. unfold getWorld at 1. simpl. by rewrite Hp.
Qed.


(** *** The name that the prompt yields *)

Lemma askLoop_accepts allowExistingRepo provider owner response script st name st' :
  askLoop (validator allowExistingRepo provider owner) response script st
  = (Continue (name, None), st') →
  accepted allowExistingRepo provider owner name.
Proof.
  revert st. induction script as [|[answer|cause] rest IH]; intros st H; simpl in H.
  - by inversion H.
  - rewrite !bind_eq in H. unfold setStdin at 1, validator at 1 in H.
    destruct (decide (TrimSpace answer = "")) as [E|E]; simpl in H.
    { by apply IH in H. }
    destruct allowExistingRepo; simpl in H.
    { injection H as <- _. split; [done | by left]. }
    destruct provider as [p|]; simpl in H; [|by inversion H].
    rewrite bind_eq in H. unfold emit at 1 in H.
    destruct (GitProvider.ValidateRepositoryName p owner answer) eqn:V; simpl in H.
    + by apply IH in H.
    + injection H as <- _. split; [done|]. right. by exists p.
  - by inversion H.
Qed.

Lemma GetRepoName_interactive_accepts allowExistingRepo provider defaultRepoName owner
    st name st' :
  GetRepoName false allowExistingRepo provider defaultRepoName owner st
  = (Return (name, None), st') →
  accepted allowExistingRepo provider owner name ∧ name ≠ "".
Proof.
  unfold GetRepoName, AskOne. rewrite !bind_eq. unfold emit at 1.
  rewrite bind_eq. unfold getWorld at 1.
  destruct (askLoop _ _ _ _) as [[[name' [e|]]|r|] st1] eqn:E.
  - by intros [=].
  - destruct (decide (name' = "")); [by intros [=]|]. intros [= <- <-].
    split; [|done]. by eapply askLoop_accepts.
  - apply askLoop_inv in E. done.
  - by intros [=].
Qed.

Lemma bindAndAssemble_prompted defaultRepoName server userAuth git allowExistingRepo
    gitUsername st d e st' :
  GitRepositoryOptions.RepoName (opts st) = "" →
  bindAndAssemble false defaultRepoName server userAuth git allowExistingRepo
    gitUsername st = (Return (Some d, e), st') →
  accepted allowExistingRepo (CreateRepoData.GitProvider d)
    (CreateRepoData.Organisation d) (CreateRepoData.RepoName d).
Proof.
  intros Hr. unfold bindAndAssemble.
  rewrite bind_eq. unfold emit at 1. rewrite bind_eq. unfold getWorld at 1.
  destruct (CreateProvider server userAuth git _) as [provider [m|]]; [by intros [=]|].
  rewrite bind_eq.
  destruct (resolveOwner _ _ _ _ _) as [c1 st1] eqn:E1.
  apply resolveOwner_inv in E1 as (Ho & _ & Hc). simpl in Ho.
  destruct c1 as [[owner err]|r|];
    [|by destruct Hc as (e1 & -> & _); intros [=]|by intros [=]].
  rewrite bind_eq. unfold resolveRepoName at 1. rewrite bind_eq.
  unfold getOpts at 1. cbv zeta. rewrite Ho, Hr.
  destruct (decide ("" = "")) as [_|]; [|done].
  unfold call, mbind at 1, M_bind at 1. cbv beta.
  destruct (GetRepoName false _ _ _ _ _) as [[[]|[name [e'|]]|] stn] eqn:EN;
    [by intros [=]| |by intros [=]].
  apply GetRepoName_interactive_accepts in EN as [Ha _].
  unfold mbind, M_bind, getOpts, ret. simpl. by intros [= <- _ _].
Qed.

(** X13: the name that the interactive name stage returns has passed the
    validator: it is not blank, and unless an existing repository may be
    reused the provider has accepted it for the owner.  So the repository
    name of a result of [PickNewGitRepository], when it was asked for, is
    one the provider of that result accepts for the owner of that
    result. *)
Theorem prompted_name_is_accepted allowExistingRepo provider defaultRepoName owner st
    name st' :
  GetRepoName false allowExistingRepo provider defaultRepoName owner st
  = (Return (name, None), st') →
  name ≠ ""
  ∧ accepted allowExistingRepo provider owner name
  ∧ ∀ authConfigSvc server userAuth git st0 d e st0',
      GitRepositoryOptions.RepoName (opts st0) = "" →
      PickNewGitRepository false authConfigSvc defaultRepoName server userAuth git st0
      = (Return (Some d, e), st0') →
      ∃ p, CreateRepoData.GitProvider d = Some p
           ∧ GitProvider.ValidateRepositoryName p (CreateRepoData.Organisation d)
               (CreateRepoData.RepoName d) = None
           ∧ TrimSpace (CreateRepoData.RepoName d) ≠ "".
Proof.
  intros H. apply GetRepoName_interactive_accepts in H as [Ha Hn].
  split; [done|]. split; [done|].
  intros authConfigSvc server userAuth git st0 d e st0' Hr Hm.
  unfold PickNewGitRepository in Hm.
  apply main_success_stages in Hm as (st1 & s & st2 & st3 & st4 & u & _ & _ & _ & _ & _
                                       & _ & Hb & F).
  destruct F as (_ & _ & _ & _ & FR & _). rewrite Hr in FR.
  apply bindAndAssemble_prompted in Hb as [Ht [[=]|(p & Hp & Hv)]]; [|done].
  by exists p.
Qed.

(** X14: in interactive mode the name stage calls the Prompt Engine and,
    beyond that, only the provider's validation: always for the owner it
    was given, never for a blank name, and never at all when an existing
    repository may be reused. *)
Theorem blank_names_never_reach_the_provider allowExistingRepo provider defaultRepoName
    owner st :
  Forall (nameEvent allowExistingRepo owner)
    (emitted st
       (GetRepoName false allowExistingRepo provider defaultRepoName owner st).2).
Proof.
  assert (runs (nameEvent allowExistingRepo owner) (λ _, True)
            (GetRepoName false allowExistingRepo provider defaultRepoName owner)) as H.
  { unfold GetRepoName, AskOne. runs_auto; try done.
    apply runs_askLoop. intros v. unfold validator. runs_auto. done. }
  destruct (H st) as [[_ (evs & T & Q)] _]. by rewrite (emitted_app _ _ _ T).
Qed.

(** X15: when the interactive name stage fails, it returns the empty name,
    and the error is the one of the Prompt Engine; the error "No
    repository name specified" of lines 199-201 can only be returned if
    trimming the empty string does not give the empty string. *)
Theorem name_stage_errors allowExistingRepo provider defaultRepoName owner st name e st' :
  GetRepoName false allowExistingRepo provider defaultRepoName owner st
  = (Return (name, Some e), st') →
  name = ""
  ∧ ((∃ m, e = Foreign m)
     ∨ (e = Errorf "No repository name specified" ∧ TrimSpace "" ≠ "")).
Proof.
  unfold GetRepoName, AskOne. rewrite !bind_eq. unfold emit at 1.
  rewrite bind_eq. unfold getWorld at 1.
  destruct (askLoop _ _ _ _) as [[[name' [e'|]]|r|] st1] eqn:E;
    apply askLoop_inv in E.
  - destruct E as [-> [m ->]]. intros [= <- <- <-]. split; [done|]. left. by eexists.
  - destruct (decide (name' = "")) as [->|]; [|by intros [=]].
    intros [= <- <- <-]. split; [done|]. by right.
  - done.
  - by intros [=].
Qed.


(** *** The order of the stages *)

Lemma phased_bind_l {A B} (m : M GoResult A) (f : A → M GoResult B) :
  runs beforeProvider (λ _, True) m → (∀ a, phased (f a)) → phased (m ≫= f).
Proof.
  intros Hm Hf st. destruct (Hm st) as [[_ (evs1 & T1 & Q1)] _].
  rewrite bind_eq. destruct (m st) as [[a|r|] st1]; simpl in *.
  - destruct (Hf a st1) as (front & back & T2 & Q2 & P2).
    exists (evs1 ++ front), back. rewrite T2, T1, <- !app_assoc.
    split; [done|]. split; [by apply Forall_app | done].
  - exists evs1, []. by rewrite app_nil_r.
  - exists evs1, []. by rewrite app_nil_r.
Qed.

Lemma phased_bindAndAssemble batchMode defaultRepoName server userAuth git
    allowExistingRepo gitUsername :
  phased (bindAndAssemble batchMode defaultRepoName server userAuth git
            allowExistingRepo gitUsername).
Proof.
  intros st. unfold bindAndAssemble. rewrite bind_eq. unfold emit at 1.
  match goal with |- context [?m (mkState ?w ?o ?t)] =>
    assert (runs afterProvider (λ _ : GoResult, True) m) as H;
      [|destruct (H (mkState w o t)) as [[_ (evs & T & Q)] _]] end.
  { unfold resolveOwner, resolveRepoName. runs_auto; try done.
    - apply (runs_call _ _ (λ _, True)). unfold GetOwner. runs_auto; done.
    - apply (runs_call _ _ (λ _, True)). unfold GetRepoName, AskOne.
      runs_auto; try done.
      apply runs_askLoop. intros v. unfold validator. runs_auto. done. }
  exists [], (EvCreateProvider server userAuth :: evs). simpl in *.
  rewrite T, <- app_assoc. split; [done|]. split; [done|]. split; [by eauto | done].
Qed.

(** X16: the stages run in order.  The provider is constructed at most
    once, after everything the server and credential stages and the edit
    flow do; and only after the provider has been constructed is the
    owner or the repository name asked for or a name validated. *)
Theorem provider_bound_before_owner_and_name batchMode authConfigSvc defaultRepoName
    server userAuth git allowExistingRepo st :
  ∃ front back,
    emitted st
      (PickNewOrExistingGitRepository batchMode authConfigSvc defaultRepoName server
         userAuth git allowExistingRepo st).2 = front ++ back
    ∧ Forall beforeProvider front
    ∧ providerPhase back.
Proof.
  assert (phased (PickNewOrExistingGitRepository batchMode authConfigSvc
                    defaultRepoName server userAuth git allowExistingRepo)) as H.
  { unfold PickNewOrExistingGitRepository.
    apply phased_bind_l.
    { unfold resolveServer. runs_auto; try done. apply runs_rangeServers. }
    intros server'. apply phased_bind_l; [runs_auto|]. intros s.
    apply phased_bind_l; [by runs_auto|]. intros _.
    apply phased_bind_l; [unfold resolveUserAuth; runs_auto; done|].
    intros userAuth'.
    apply phased_bind_l; [unfold applyToken; runs_auto; done|]. intros _.
    apply phased_bind_l; [unfold editFlow; runs_auto; done|]. intros _.
    apply phased_bind_l; [runs_auto|]. intros u.
    apply phased_bind_l; [by runs_auto|]. intros _.
    apply phased_bindAndAssemble. }
  destruct (H st) as (front & back & T & Q & P). exists front, back.
  by rewrite (emitted_app _ _ _ T).
Qed.

End Stages.

(* ===================================================================== *)
(** ** Further runs against the reference collaborators *)
(* ===================================================================== *)

Section MoreRuns.
Import Reference.

Lemma server_url_selects_store_record_witness :
  let st := start (store "" [])
              (GitRepositoryOptions.mk "https://gitlab.example.org" "" "" "" "" "" false) in
  resolveServer false None st
  = (Continue (Some 2%positive),
     mkState (world st) (opts st) [EvGetOrCreateServer "https://gitlab.example.org"])
  ∧ ∀ d e st',
      PickNewOrExistingGitRepository false configService "" None None git false st
      = (Return (Some d, e), st') →
      CreateRepoData.Server d = Some 2%positive.
Proof.
  apply (server_url_selects_store_record false configService "" None git false
           (start (store "" [])
              (GitRepositoryOptions.mk "https://gitlab.example.org" "" "" "" "" "" false))).
  - simpl. discriminate.
  - vm_compute. reflexivity.
Defined.

Lemma interactive_server_pick_witness :
  let st := start (store "" [Abort "interrupt"]) noOptions in
  (∀ m, Some "interrupt" = Some m →
     PickNewOrExistingGitRepository false configService "" None None git false st
     = (Return (None, Some (Foreign m)),
        mkState (withStdin (world st) []) (opts st)
          [EvPickServer "Which Git service?" false]))
  ∧ (Some "interrupt" = None → ∀ s, lookupServer (withStdin (world st) []) None = Some s →
     resolveServer false None st
     = (Continue None,
        mkState (withStdin (world st) []) (withServerURL (opts st) (AuthServer.URL s))
          [EvPickServer "Which Git service?" false]))
  ∧ (Some "interrupt" = None → @None loc = None →
     (PickNewOrExistingGitRepository false configService "" None None git false st).1
     = Panic).
Proof.
  apply (interactive_server_pick configService "" None git false
           (start (store "" [Abort "interrupt"]) noOptions)).
  - reflexivity.
  - vm_compute. reflexivity.
Defined.

Lemma batch_without_credentials_fails_witness :
  let st := start (Scenario.store []) noOptions in
  PickNewOrExistingGitRepository true configService "" (Some 3%positive) None git false st
  = (Return
       (None,
        Some (Errorf "Server https://bare.example.net has no user auths defined")),
     mkState (world st) (opts st)
       [EvOut ("Using Git provider bare at https://bare.example.net" +:+ newline)]).
Proof.
  cbv zeta.
  rewrite (batch_without_credentials_fails configService "" 3%positive git false
             (start (Scenario.store []) noOptions)
             (AuthServer.mk "https://bare.example.net" "bare" "github" [] "")).
  - vm_compute. reflexivity.
  - vm_compute. reflexivity.
  - reflexivity.
  - reflexivity.
Defined.

Lemma batch_takes_first_credential_witness :
  let st := start (store "" []) noOptions in
  resolveUserAuth true (Some 1%positive) "https://git.example.com" None st
  = (Continue (Some 1%positive), st)
  ∧ ∀ d e st',
      PickNewOrExistingGitRepository true configService "" (Some 1%positive) None git
        false st = (Return (Some d, e), st') →
      CreateRepoData.User d = Some 1%positive.
Proof.
  eapply (batch_takes_first_credential configService "" 1%positive git false
            "https://git.example.com" (start (store "" []) noOptions)).
  - vm_compute. reflexivity.
  - reflexivity.
  - reflexivity.
  - reflexivity.
Defined.

Lemma batch_takes_current_credential_witness :
  let st := start (store "" []) noOptions in
  resolveUserAuth true (Some 2%positive) "https://gitlab.example.org" None st
  = (Continue (Some 2%positive),
     mkState (world st) (opts st) [EvFindUserAuth "https://gitlab.example.org" "bob"])
  ∧ ∀ d e st',
      PickNewOrExistingGitRepository true configService "" (Some 2%positive) None git
        false st = (Return (Some d, e), st') →
      CreateRepoData.User d = Some 2%positive.
Proof.
  refine (batch_takes_current_credential configService "" 2%positive git false
            (start (store "" []) noOptions)
            (AuthServer.mk "https://gitlab.example.org" "lab" "gitlab"
               [Some 2%positive] "bob")
            (Some 2%positive) [] (Some 2%positive) (store "" []) _ _ _ _ _ _).
  - vm_compute. reflexivity.
  - reflexivity.
  - simpl. discriminate.
  - reflexivity.
  - vm_compute. reflexivity.
  - vm_compute. reflexivity.
Defined.

Lemma user_name_selects_store_record_witness :
  let st := start (store "" [])
              (GitRepositoryOptions.mk "" "" "carl" "t0k3n" "" "" false) in
  ∃ d st',
    PickNewOrExistingGitRepository true configService "" (Some 1%positive) None git false
      st = (Return (Some d, None), st')
    ∧ CreateRepoData.User d = Some 4%positive
    ∧ lookupUser (world st') (Some 4%positive) = Some (UserAuth.mk "carl" "t0k3n").
Proof.
  do 2 eexists. split; [vm_compute; reflexivity|]. split.
  - eapply (user_name_selects_store_record true configService "" 1%positive git false
              (start (store "" [])
                 (GitRepositoryOptions.mk "" "" "carl" "t0k3n" "" "" false))).
    + vm_compute. reflexivity.
    + simpl. discriminate.
    + vm_compute. reflexivity.
    + vm_compute. reflexivity.
  - vm_compute. reflexivity.
Defined.

Lemma options_token_is_applied_not_persisted_witness :
  let st := start (store "" []) (Scenario.withOptionsToken "t0k3n") in
  let run := PickNewOrExistingGitRepository true configService "" (Some 2%positive)
               (Some 2%positive) git false st in
  (Forall notEditSave (emitted st run.2)
   ∧ (true = true →
      world run.2 = withUser (world st) 2%positive (withToken (UserAuth.mk "bob" "") "t0k3n")))
  ∧ ∃ d, run.1 = Return (Some d, None) ∧ CreateRepoData.Organisation d = "bob".
Proof.
  split.
  - eapply (options_token_is_applied_not_persisted true configService "" 2%positive
              2%positive git false
              (start (store "" []) (Scenario.withOptionsToken "t0k3n"))).
    + vm_compute. reflexivity.
    + vm_compute. reflexivity.
    + reflexivity.
    + simpl. discriminate.
    + reflexivity.
  - eexists. vm_compute. done.
Defined.

Lemma batch_run_with_valid_credential_writes_nothing_witness :
  let st := start (store "" []) (Scenario.withOptionsToken "other") in
  let run := PickNewOrExistingGitRepository true configService "" (Some 1%positive)
               (Some 1%positive) git false st in
  world run.2 = world st
  ∧ opts run.2 = opts st
  ∧ Forall notEditSave (emitted st run.2).
Proof.
  eapply (batch_run_with_valid_credential_writes_nothing configService "" 1%positive
            1%positive git false
            (start (store "" []) (Scenario.withOptionsToken "other"))).
  - vm_compute. reflexivity.
  - vm_compute. reflexivity.
  - reflexivity.
Defined.

(** The store refuses to persist the edited credential. *)
Lemma edit_flow_failures_end_the_run_witness :
  let st := start (store "" [Typed "t0k3n"]) noOptions in
  let refusing := ConfigService.mk (λ _ _ w, (Some "disk full", w)) in
  let run := PickNewOrExistingGitRepository false refusing "" (Some 2%positive)
               (Some 2%positive) git false st in
  run.1 = Return (None, Some (Errorf "Failed to store git auth configuration disk full"))
  ∧ emitted st run.2
    = [EvOut ("Using Git provider lab at https://gitlab.example.org" +:+ newline);
       EvGenerateAccessTokenHint (Some 2%positive) "bob";
       EvEditUserAuth "lab" (Some 2%positive) false None;
       EvSaveUserAuth "https://gitlab.example.org" (Some 2%positive) (Some "disk full")].
Proof.
  cbv zeta.
  destruct (edit_flow_failures_end_the_run false
              (ConfigService.mk (λ _ _ w, (Some "disk full", w))) "" 2%positive
              2%positive git false (start (store "" [Typed "t0k3n"]) noOptions)
              (AuthServer.mk "https://gitlab.example.org" "lab" "gitlab"
                 [Some 2%positive] "bob")
              (UserAuth.mk "bob" "") ["bob"] None
              (withStdin (withUser (store "" [Typed "t0k3n"]) 2%positive
                            (UserAuth.mk "bob" "t0k3n")) [])
              ltac:(vm_compute; reflexivity) ltac:(vm_compute; reflexivity) eq_refl eq_refl
              ltac:(vm_compute; reflexivity)) as [_ H].
  destruct (H eq_refl (Some "disk full") _ eq_refl) as [H1 _].
  exact (H1 "disk full" eq_refl).
Defined.

Lemma provider_error_stops_the_run_witness :
  let st := start (Scenario.store [Typed "acme"; Typed "app"]) noOptions in
  PickNewOrExistingGitRepository false configService "app" (Some 4%positive)
    (Some 1%positive) git false st
  = (Return (None, Some (Foreign "unsupported git kind")),
     mkState (world st) (opts st)
       [EvOut ("Using Git provider old at https://old.example.net" +:+ newline);
        EvOut (newline +:+ newline
               +:+ "About to create repository app on server https://old.example.net with user alice"
               +:+ newline);
        EvCreateProvider (Some 4%positive) (Some 1%positive)]).
Proof.
  cbv zeta.
  rewrite (provider_error_stops_the_run false configService "app" 4%positive 1%positive
             git false (start (Scenario.store [Typed "acme"; Typed "app"]) noOptions)
             (AuthServer.mk "https://old.example.net" "old" "unsupported"
                [Some 1%positive] "")
             (UserAuth.mk "alice" "s3cr3t") None "unsupported git kind").
  - vm_compute. reflexivity.
  - vm_compute. reflexivity.
  - vm_compute. reflexivity.
  - reflexivity.
  - vm_compute. reflexivity.
Defined.

Lemma prompted_name_is_accepted_witness :
  let st := start (store "" [Typed " "; Typed "taken"; Typed "fresh"]) noOptions in
  (GetRepoName false false (Some (provider ["taken"])) "app" "alice" st).1
  = Return ("fresh", None)
  ∧ "fresh" ≠ ""
  ∧ accepted false (Some (provider ["taken"])) "alice" "fresh"
  ∧ ∀ authConfigSvc server userAuth git st0 d e st0',
      GitRepositoryOptions.RepoName (opts st0) = "" →
      PickNewGitRepository false authConfigSvc "app" server userAuth git st0
      = (Return (Some d, e), st0') →
      ∃ p, CreateRepoData.GitProvider d = Some p
           ∧ GitProvider.ValidateRepositoryName p (CreateRepoData.Organisation d)
               (CreateRepoData.RepoName d) = None
           ∧ TrimSpace (CreateRepoData.RepoName d) ≠ "".
Proof.
  split; [vm_compute; reflexivity|].
  eapply (prompted_name_is_accepted false (Some (provider ["taken"])) "app" "alice"
            (start (store "" [Typed " "; Typed "taken"; Typed "fresh"]) noOptions)).
  vm_compute. reflexivity.
Defined.

Lemma name_stage_errors_witness :
  let st := start (store "" [Typed "taken"; Abort "interrupt"]) noOptions in
  (GetRepoName false false (Some (provider ["taken"])) "app" "alice" st).1
  = Return ("", Some (Foreign "interrupt"))
  ∧ "" = ""
  ∧ ((∃ m, Foreign "interrupt" = Foreign m)
     ∨ (Foreign "interrupt" = Errorf "No repository name specified" ∧ TrimSpace "" ≠ "")).
Proof.
  split; [vm_compute; reflexivity|].
  eapply (name_stage_errors false (Some (provider ["taken"])) "app" "alice"
            (start (store "" [Typed "taken"; Abort "interrupt"]) noOptions)).
  vm_compute. reflexivity.
Defined.

Lemma options_written_only_for_server_url_witness :
  let given := GitRepositoryOptions.mk "https://gitlab.example.org" "" "" "" "" "" false in
  let run1 := PickNewOrExistingGitRepository true configService "" None None git false
                (start (store "" []) given) in
  let st := start (store "lab" []) (Scenario.withOptionsToken "t0k3n") in
  let run2 := PickNewOrExistingGitRepository true configService "" None None git false st in
  opts run1.2 = given
  ∧ (∃ d, run2.1 = Return (Some d, None))
  ∧ opts run2.2 = withServerURL (opts st) "https://gitlab.example.org".
Proof.
  cbv zeta. split_and!.
  - apply (options_written_only_for_server_url true configService "" None None git false
             (start (store "" [])
                (GitRepositoryOptions.mk "https://gitlab.example.org" "" "" "" "" ""
                   false))).
    right. simpl. discriminate.
  - eexists. vm_compute. reflexivity.
  - vm_compute. reflexivity.
Defined.

End MoreRuns.
